(** * Workflow execution engine of [main.go]: model and verified properties

    The development embeds the engine part of [main.go] (data models,
    [WorkflowEngine.GetWorkflow], [WorkflowEngine.ExecuteWorkflow],
    [WorkflowExecutor.Execute], [WorkflowExecutor.buildExecutionGraph] and the
    six node executors) and states the properties of the specification
    against it.

    Go constructs are rendered as follows.
    - [map[string]T] is a [gmap string T]; slices are lists.
    - [interface{}] is the tagged union [Value].
    - [float64] is [spec_float] (sign, mantissa, exponent), [time.Time] a
      number of nanoseconds.
    - [error] is [option string]: [None] is [nil], [Some msg] an error whose
      [Error()] text is [msg].
    - pointers are indices into a heap; the heap of workflows and the heap
      of execution results live in [World], dereferencing an index that is
      not allocated is a panic ([None] of the monad [M]). *)

From Stdlib Require Import ZArith SpecFloat.
From stdpp Require Import gmap strings list fin_maps.

Local Open Scope string_scope.
Local Open Scope list_scope.
Set Warnings "-register-all,-clear-no-such-hyp".

(** ** Data models (main.go, lines 22-71) *)

Definition float64 := spec_float.
Definition float64_zero : float64 := S754_zero false.

Inductive Value : Type :=
| VNil
| VBool (b : bool)
| VFloat (f : float64)
| VString (s : string)
| VSlice (l : list Value)
| VMap (m : gmap string Value).

Definition NodeType := string.

Definition NodeWebhook : NodeType := "webhook".
Definition NodeTimer : NodeType := "timer".
Definition NodeHTTP : NodeType := "http".
Definition NodeEmail : NodeType := "email".
Definition NodeDatabase : NodeType := "database".
Definition NodeCondition : NodeType := "condition".
Definition NodeLoop : NodeType := "loop".
Definition NodeTransform : NodeType := "transform".
Definition NodeSlack : NodeType := "slack".
Definition NodeSheets : NodeType := "sheets".
Definition NodeOpenAI : NodeType := "openai".

Record Node := mkNode {
  node_ID : string;
  node_Type : NodeType;
  node_Name : string;
  node_X : float64;
  node_Y : float64;
  node_Properties : gmap string Value
}.

Record Connection := mkConnection {
  conn_ID : string;
  conn_FromID : string;
  conn_ToID : string
}.

Definition Time := Z.

Record Workflow := mkWorkflow {
  wf_ID : string;
  wf_Name : string;
  wf_Description : string;
  wf_Nodes : list Node;
  wf_Connections : list Connection;
  wf_CreatedAt : Time;
  wf_UpdatedAt : Time;
  wf_Status : string
}.

Record ExecutionResult := mkExecutionResult {
  WorkflowID : string;
  Status : string;
  StartTime : Time;
  EndTime : Time;
  Results : gmap string Value;
  Errors : list string
}.

Definition error := option string.

(** ** The environment of node executors

    An executor sees the clock only ([time.Sleep] in the timer).  [clock] is
    the reading of the monotonic clock, which never runs backwards.  Time
    also passes while the program runs: [lapses] lists, for the coming
    readings of the clock one after the other, how much time passes after
    the reading.  The program cannot see this list; each [time.Now()]
    consumes its head. *)

Record Env := mkEnv { clock : Time; lapses : list Z }.

(** The environment after a reading of the clock: the time at the head of
    [lapses] has passed. *)
Definition tick (e : Env) : Env :=
  mkEnv (clock e + Z.max 0 (hd 0%Z (lapses e)))%Z (tl (lapses e)).

(** [NodeExecutor] is the interface of main.go, line 169: one method
    [Execute(node *Node, input interface{}) (interface{}, error)].  The node
    it receives is the loop's copy; the six executors of the program read
    it and write nothing but their own output. *)
Record NodeExecutor := mkNodeExecutor {
  executor_Execute : Node -> Value -> Env -> (Value * error) * Env
}.

Record WorkflowExecutor := mkWorkflowExecutor {
  nodeExecutors : gmap NodeType NodeExecutor
}.

(** ** Type assertions with the comma-ok form

    [v, _ := m[k].(string)] yields the zero value when the key is missing or
    holds a value of another dynamic type. *)

Definition assert_string (o : option Value) : string :=
  match o with
  | Some (VString s) => s
  | _ => ""
  end.

Definition assert_float64 (o : option Value) : float64 :=
  match o with
  | Some (VFloat f) => f
  | _ => float64_zero
  end.

(** ** Durations

    [time.Duration] is an [int64] count of nanoseconds.  The conversion
    [time.Duration(interval)] truncates toward zero; for a value that does
    not fit (also NaN and the infinities) Go leaves the result to the
    implementation and never panics: the model returns what amd64 does, the
    smallest [int64]. *)

Definition int64_min : Z := (- 2 ^ 63)%Z.
Definition int64_max : Z := (2 ^ 63 - 1)%Z.

Definition wrap_int64 (z : Z) : Z := ((z + 2 ^ 63) mod 2 ^ 64 - 2 ^ 63)%Z.

Definition float64_to_int64 (f : float64) : Z :=
  match f with
  | S754_zero _ => 0%Z
  | S754_finite s m e =>
      let mag := Z.shiftl (Z.pos m) e in
      let v := if s then (- mag)%Z else mag in
      if bool_decide (int64_min ≤ v ≤ int64_max)%Z then v else int64_min
  | _ => int64_min
  end.

Definition time_Second : Z := 1000000000%Z.

(** [time.Sleep(d)] returns at once when [d <= 0]. *)
Definition time_Sleep (d : Z) (e : Env) : Env :=
  mkEnv (clock e + Z.max 0 d)%Z (lapses e).

(** ** Node executors (main.go, lines 238-314) *)

Definition WebhookExecutor_Execute (node : Node) (input : Value) (e : Env)
  : (Value * error) * Env :=
  let url := assert_string (node_Properties node !! "url") in
  let method := assert_string (node_Properties node !! "method") in
  ((VMap (<["status" := VString "webhook_executed"]>
          (<["url" := VString url]>
           (<["method" := VString method]> ∅))), None), e).

Definition TimerExecutor_Execute (node : Node) (input : Value) (e : Env)
  : (Value * error) * Env :=
  let interval := assert_float64 (node_Properties node !! "interval") in
  let e' := time_Sleep (wrap_int64 (float64_to_int64 interval * time_Second)%Z) e in
  ((VMap (<["status" := VString "timer_completed"]>
          (<["waited" := VFloat interval]> ∅)), None), e').

Definition HTTPExecutor_Execute (node : Node) (input : Value) (e : Env)
  : (Value * error) * Env :=
  let url := assert_string (node_Properties node !! "url") in
  let method := assert_string (node_Properties node !! "method") in
  ((VMap (<["status" := VString "http_request_sent"]>
          (<["url" := VString url]>
           (<["method" := VString method]> ∅))), None), e).

Definition EmailExecutor_Execute (node : Node) (input : Value) (e : Env)
  : (Value * error) * Env :=
  let to := assert_string (node_Properties node !! "to") in
  let subject := assert_string (node_Properties node !! "subject") in
  ((VMap (<["status" := VString "email_sent"]>
          (<["to" := VString to]>
           (<["subject" := VString subject]> ∅))), None), e).

Definition ConditionExecutor_Execute (node : Node) (input : Value) (e : Env)
  : (Value * error) * Env :=
  let condition := assert_string (node_Properties node !! "condition") in
  let result := true in
  ((VMap (<["status" := VString "condition_evaluated"]>
          (<["condition" := VString condition]>
           (<["result" := VBool result]> ∅))), None), e).

Definition TransformExecutor_Execute (node : Node) (input : Value) (e : Env)
  : (Value * error) * Env :=
  let script := assert_string (node_Properties node !! "script") in
  ((VMap (<["status" := VString "data_transformed"]>
          (<["script" := VString script]> ∅)), None), e).

Definition WebhookExecutor := mkNodeExecutor WebhookExecutor_Execute.
Definition TimerExecutor := mkNodeExecutor TimerExecutor_Execute.
Definition HTTPExecutor := mkNodeExecutor HTTPExecutor_Execute.
Definition EmailExecutor := mkNodeExecutor EmailExecutor_Execute.
Definition ConditionExecutor := mkNodeExecutor ConditionExecutor_Execute.
Definition TransformExecutor := mkNodeExecutor TransformExecutor_Execute.

(** main.go, lines 173-187. *)
Definition NewWorkflowExecutor : WorkflowExecutor :=
  mkWorkflowExecutor
    (<[NodeTransform := TransformExecutor]>
     (<[NodeCondition := ConditionExecutor]>
      (<[NodeEmail := EmailExecutor]>
       (<[NodeHTTP := HTTPExecutor]>
        (<[NodeTimer := TimerExecutor]>
         (<[NodeWebhook := WebhookExecutor]> ∅)))))).

(** ** The world and the monad of the coordinator

    [workflows] is the engine's [map[string]*Workflow] (main.go, line 78),
    [wf_heap] holds the workflows the pointers refer to and [res_heap] the
    [ExecutionResult] objects allocated so far; an object is never freed
    while it can be reached, so allocation appends.  [calls] is a ghost log:
    one entry (node, input) per call of a [NodeExecutor]'s [Execute], in call
    order; no code reads it. *)

Record World := mkWorld {
  env : Env;
  workflows : gmap string nat;
  wf_heap : list Workflow;
  res_heap : list ExecutionResult;
  calls : list (Node * Value)
}.

Definition M (A : Type) : Type := World -> option (A * World).

Definition ret {A} (a : A) : M A := fun w => Some (a, w).

Definition bind {A B} (m : M A) (k : A -> M B) : M B :=
  fun w => match m w with
           | Some (a, w') => k a w'
           | None => None
           end.

#[global] Instance M_ret : MRet M := @ret.
#[global] Instance M_bind : MBind M := fun A B k m => bind m k.

Definition set_env (e : Env) (w : World) : World :=
  mkWorld e (workflows w) (wf_heap w) (res_heap w) (calls w).
Definition set_res_heap (h : list ExecutionResult) (w : World) : World :=
  mkWorld (env w) (workflows w) (wf_heap w) h (calls w).
Definition set_calls (c : list (Node * Value)) (w : World) : World :=
  mkWorld (env w) (workflows w) (wf_heap w) (res_heap w) c.

(** [time.Now()]: the reading, after which time goes on. *)
Definition time_Now : M Time :=
  fun w => Some (clock (env w), set_env (tick (env w)) w).

(** [*workflow] *)
Definition deref_workflow (p : nat) : M Workflow :=
  fun w => match wf_heap w !! p with
           | Some wf => Some (wf, w)
           | None => None
           end.

(** [&ExecutionResult{...}] *)
Definition new_result (r : ExecutionResult) : M nat :=
  fun w => Some (length (res_heap w), set_res_heap (res_heap w ++ [r]) w).

(** [*result] *)
Definition load_result (p : nat) : M ExecutionResult :=
  fun w => match res_heap w !! p with
           | Some r => Some (r, w)
           | None => None
           end.

(** An assignment to a field of [*result]. *)
Definition modify_result (p : nat) (f : ExecutionResult -> ExecutionResult) : M unit :=
  fun w => match res_heap w !! p with
           | Some r => Some (tt, set_res_heap (<[p := f r]> (res_heap w)) w)
           | None => None
           end.

Definition set_Status (s : string) (r : ExecutionResult) : ExecutionResult :=
  mkExecutionResult (WorkflowID r) s (StartTime r) (EndTime r) (Results r) (Errors r).
Definition set_EndTime (t : Time) (r : ExecutionResult) : ExecutionResult :=
  mkExecutionResult (WorkflowID r) (Status r) (StartTime r) t (Results r) (Errors r).
Definition set_Results (m : gmap string Value) (r : ExecutionResult) : ExecutionResult :=
  mkExecutionResult (WorkflowID r) (Status r) (StartTime r) (EndTime r) m (Errors r).
Definition set_Errors (l : list string) (r : ExecutionResult) : ExecutionResult :=
  mkExecutionResult (WorkflowID r) (Status r) (StartTime r) (EndTime r) (Results r) l.

(** [result.Errors = append(result.Errors, msg)] *)
Definition append_error (msg : string) (r : ExecutionResult) : ExecutionResult :=
  set_Errors (Errors r ++ [msg]) r.

(** [result.Results[id] = output] *)
Definition put_result (id : string) (output : Value) (r : ExecutionResult) : ExecutionResult :=
  set_Results (<[id := output]> (Results r)) r.

(** [executor.Execute(&node, input)] *)
Definition call_executor (ex : NodeExecutor) (node : Node) (input : Value) : M (Value * error) :=
  fun w => let '(out, e') := executor_Execute ex node input (env w) in
           Some (out, set_calls (calls w ++ [(node, input)]) (set_env e' w)).

(** ** The graph builder (main.go, lines 228-232) *)

Definition buildExecutionGraph (workflow : Workflow) : list Node :=
  wf_Nodes workflow.

(** ** The coordinator (main.go, lines 189-226) *)

(** The body of the loop of lines 202-216 for one node. *)
Definition Execute_node (we : WorkflowExecutor) (result : nat) (node : Node) : M unit :=
  match nodeExecutors we !! node_Type node with
  | None =>
      modify_result result
        (append_error ("no executor for node type: " +:+ node_Type node))
  | Some executor =>
      '(output, err) ← call_executor executor node VNil;
      match err with
      | Some msg =>
          modify_result result
            (append_error ("node " +:+ node_ID node +:+ " error: " +:+ msg))
      | None =>
          modify_result result (put_result (node_ID node) output)
      end
  end.

(** [for _, node := range graph { ... }] *)
Fixpoint Execute_loop (we : WorkflowExecutor) (result : nat) (graph : list Node) : M unit :=
  match graph with
  | [] => ret tt
  | node :: rest => Execute_node we result node ;; Execute_loop we result rest
  end.

(** Lines 190-199: the result is allocated, the plan is built. *)
Definition Execute_begin (workflow : nat) : M (nat * list Node) :=
  wf ← deref_workflow workflow;
  now ← time_Now;
  result ← new_result (mkExecutionResult (wf_ID wf) "running" now 0%Z ∅ []);
  ret (result, buildExecutionGraph wf).

(** Lines 218-223. *)
Definition Execute_end (result : nat) : M unit :=
  now ← time_Now;
  modify_result result (set_EndTime now) ;;
  r ← load_result result;
  if bool_decide (0 < length (Errors r))
  then modify_result result (set_Status "failed")
  else modify_result result (set_Status "completed").

Definition Execute (we : WorkflowExecutor) (workflow : nat) : M (option nat * error) :=
  '(result, graph) ← Execute_begin workflow;
  Execute_loop we result graph ;;
  Execute_end result ;;
  ret (Some result, None).

(** ** The engine boundary (main.go, lines 105-114 and 152-159)

    The reader lock of [GetWorkflow] has no effect on a single call and is
    left out. *)

Definition GetWorkflow (id : string) : M (option nat * error) :=
  fun w => match workflows w !! id with
           | None => Some ((None, Some "workflow not found"), w)
           | Some p => Some ((Some p, None), w)
           end.

Definition ExecuteWorkflow (executor : WorkflowExecutor) (id : string)
  : M (option nat * error) :=
  '(workflow, err) ← GetWorkflow id;
  match err with
  | Some _ => ret (None, err)
  | None =>
      match workflow with
      | Some p => Execute executor p
      | None => fun _ => None
      end
  end.

(** ** Vocabulary of the specification: graph structure and plans *)

(** There is a connection from [a] to [b]. *)
Definition edge (wf : Workflow) (a b : string) : Prop :=
  ∃ c, c ∈ wf_Connections wf ∧ conn_FromID c = a ∧ conn_ToID c = b.

(** A node identifier lies on a cycle of connections. *)
Definition on_cycle (wf : Workflow) (a : string) : Prop := tc (edge wf) a a.

Definition cyclic (wf : Workflow) : Prop := ∃ a, on_cycle wf a.

(** A connection with an endpoint that is no node of the workflow. *)
Definition dangling (wf : Workflow) : Prop :=
  ∃ c, c ∈ wf_Connections wf ∧
       (conn_FromID c ∉ map node_ID (wf_Nodes wf) ∨
        conn_ToID c ∉ map node_ID (wf_Nodes wf)).

(** Position of the first node with identifier [id] in a plan. *)
Fixpoint position (id : string) (plan : list Node) : option nat :=
  match plan with
  | [] => None
  | n :: rest =>
      if bool_decide (node_ID n = id) then Some 0
      else S <$> position id rest
  end.

(** [a] and [b] both occur in the plan, [a] first. *)
Definition precedes (plan : list Node) (a b : string) : bool :=
  match position a plan, position b plan with
  | Some i, Some j => bool_decide (i < j)
  | _, _ => false
  end.

(** A plan respects every connection of the workflow. *)
Definition respects_connections (wf : Workflow) (plan : list Node) : bool :=
  forallb (λ c, precedes plan (conn_FromID c) (conn_ToID c)) (wf_Connections wf).

(** What a caller of [buildExecutionGraph] can observe.  The Go function has
    one result, the slice of nodes, and no error result: every call ends in
    [PlanBuilt]. *)
Inductive BuildOutcome :=
| PlanBuilt (plan : list Node)
| CycleDetected (node : string)
| DanglingConnection (connection endpoint : string).

Definition buildExecutionGraph_outcome (workflow : Workflow) : BuildOutcome :=
  PlanBuilt (buildExecutionGraph workflow).

(** The node type has an executor in the registry. *)
Definition registered (we : WorkflowExecutor) (n : Node) : Prop :=
  is_Some (nodeExecutors we !! node_Type n).

#[global] Instance registered_dec we n : Decision (registered we n).
Proof. unfold registered. apply _. Defined.

(** The two shapes of a per-node entry of the error list. *)
Definition dispatch_error (n : Node) : string :=
  "no executor for node type: " +:+ node_Type n.
Definition executor_error (n : Node) (msg : string) : string :=
  "node " +:+ node_ID n +:+ " error: " +:+ msg.

(** ** The loop as a fold

    The part of the world the loop of [Execute] works on: the environment,
    the result object behind the pointer and the call log. *)

Record LoopState := mkLoopState {
  ls_env : Env;
  ls_result : ExecutionResult;
  ls_calls : list (Node * Value)
}.

Definition step (we : WorkflowExecutor) (s : LoopState) (n : Node) : LoopState :=
  match nodeExecutors we !! node_Type n with
  | None => mkLoopState (ls_env s) (append_error (dispatch_error n) (ls_result s)) (ls_calls s)
  | Some ex =>
      match executor_Execute ex n VNil (ls_env s) with
      | ((_, Some msg), e') =>
          mkLoopState e' (append_error (executor_error n msg) (ls_result s))
                      (ls_calls s ++ [(n, VNil)])
      | ((output, None), e') =>
          mkLoopState e' (put_result (node_ID n) output (ls_result s))
                      (ls_calls s ++ [(n, VNil)])
      end
  end.

Definition run (we : WorkflowExecutor) (s : LoopState) (graph : list Node) : LoopState :=
  foldl (step we) s graph.

(** The world in which the loop state [s] has been written back. *)
Definition world_of (w : World) (p : nat) (s : LoopState) : World :=
  mkWorld (ls_env s) (workflows w) (wf_heap w) (<[p := ls_result s]> (res_heap w)) (ls_calls s).

Definition loop_state (w : World) (r : ExecutionResult) : LoopState :=
  mkLoopState (env w) r (calls w).

(** The end of [Execute] applied to the result object. *)
Definition finish (now : Time) (r : ExecutionResult) : ExecutionResult :=
  let r := set_EndTime now r in
  if bool_decide (0 < length (Errors r)) then set_Status "failed" r
  else set_Status "completed" r.

Definition initial_result (wf : Workflow) (now : Time) : ExecutionResult :=
  mkExecutionResult (wf_ID wf) "running" now 0%Z ∅ [].

(** ** Definitions used by the statements *)

(** The state in which the loop of [Execute] starts on workflow [wf] in
    world [w]: the start time has been read. *)
Definition start_state (w : World) (wf : Workflow) : LoopState :=
  mkLoopState (tick (env w)) (initial_result wf (clock (env w))) (calls w).

(** The world in which the loop of [Execute] starts: the start time has
    been read and the result is allocated. *)
Definition begin_world (w : World) (wf : Workflow) : World :=
  set_res_heap (res_heap w ++ [initial_result wf (clock (env w))])
               (set_env (tick (env w)) w).

(** The state of the loop of [Execute] when it has run over [graph], started
    on workflow [wf] in world [w]. *)
Definition loop_result (we : WorkflowExecutor) (w : World) (wf : Workflow)
    (graph : list Node) : LoopState :=
  run we (start_state w wf) graph.

(** The world [Execute] ends in. *)
Definition final_world (we : WorkflowExecutor) (w : World) (wf : Workflow) : World :=
  let s := loop_result we w wf (buildExecutionGraph wf) in
  mkWorld (tick (ls_env s)) (workflows w) (wf_heap w)
          (res_heap w ++ [finish (clock (ls_env s)) (ls_result s)])
          (ls_calls s).

(** Every pointer the engine's map holds refers to an allocated workflow:
    [CreateWorkflow] and [UpdateWorkflow] store pointers they have just
    dereferenced. *)
Definition store_ok (w : World) : Prop :=
  ∀ id p, workflows w !! id = Some p -> is_Some (wf_heap w !! p).

(** An entry of the error list that one node of [graph] accounts for. *)
Definition per_node_error (we : WorkflowExecutor) (graph : list Node) (e : string) : Prop :=
  ∃ n, n ∈ graph ∧
       ((¬ registered we n ∧ e = dispatch_error n) ∨
        (registered we n ∧ ∃ msg, e = executor_error n msg)).

(** The node has no executor, or its executor fails in environment [e]. *)
Definition node_fails (we : WorkflowExecutor) (n : Node) (e : Env) : Prop :=
  match nodeExecutors we !! node_Type n with
  | None => True
  | Some ex => is_Some (executor_Execute ex n VNil e).1.2
  end.

(** The identifiers of the direct predecessors of a node. *)
Definition predecessors (wf : Workflow) (id : string) : list string :=
  map conn_FromID (filter (λ c, conn_ToID c = id) (wf_Connections wf)).

(** The input the specification describes for node [n] when [recorded] is
    the output mapping so far: the recorded outputs of the direct
    predecessors, keyed by predecessor; for a node without predecessors an
    empty mapping or no value. *)
Definition input_as_specified (wf : Workflow) (recorded : gmap string Value)
    (n : Node) (input : Value) : Prop :=
  input = VMap (filter (λ kv, kv.1 ∈ predecessors wf (node_ID n)) recorded) ∨
  (predecessors wf (node_ID n) = [] ∧ input = VNil).

Definition registered_types : list NodeType :=
  [NodeWebhook; NodeTimer; NodeHTTP; NodeEmail; NodeCondition; NodeTransform].

Definition registered_executors : list NodeExecutor :=
  [WebhookExecutor; TimerExecutor; HTTPExecutor; EmailExecutor;
   ConditionExecutor; TransformExecutor].

(** The executor returns a non-nil map and a nil error, whatever it is
    given. *)
Definition always_succeeds (ex : NodeExecutor) : Prop :=
  ∀ n input e, ∃ m e', executor_Execute ex n input e = ((VMap m, None), e').

(** ** Example workflows and worlds *)

Definition demo_node (id : string) (ty : NodeType) : Node :=
  mkNode id ty id float64_zero float64_zero ∅.

Definition demo_workflow (nodes : list Node) (conns : list Connection) : Workflow :=
  mkWorkflow "wf-1" "demo" "" nodes conns 0%Z 0%Z "inactive".

(** A world with one stored workflow, no result yet, and the clock at 7. *)
Definition demo_world (wf : Workflow) : World :=
  mkWorld (mkEnv 7%Z [2; 3; 5; 8]%Z) (<["wf-1" := 0]> ∅) [wf] [] [].

Definition wf_webhook : Workflow :=
  demo_workflow
    [mkNode "n1" NodeWebhook "hook" float64_zero float64_zero
            (<["url" := VString "/hook"]> (<["method" := VString "POST"]> ∅))]
    [].

Definition wf_mixed : Workflow :=
  demo_workflow [demo_node "a" NodeWebhook; demo_node "b" NodeDatabase;
                 demo_node "c" NodeEmail]
                [mkConnection "c1" "a" "b"; mkConnection "c2" "b" "c"].

Definition wf_chain : Workflow :=
  demo_workflow [demo_node "a" NodeWebhook; demo_node "b" NodeHTTP]
                [mkConnection "c1" "a" "b"].

(** b is stored before a, and a is connected to b. *)
Definition wf_reversed : Workflow :=
  demo_workflow [demo_node "b" NodeHTTP; demo_node "a" NodeWebhook]
                [mkConnection "c1" "a" "b"].

Definition wf_ab : Workflow :=
  demo_workflow [demo_node "a" NodeWebhook; demo_node "b" NodeHTTP] [].


Definition wf_cycle : Workflow :=
  demo_workflow [demo_node "a" NodeWebhook; demo_node "b" NodeHTTP]
                [mkConnection "c1" "a" "b"; mkConnection "c2" "b" "a"].



(** An executor that always fails, registered for the type "flaky" next to
    the six executors of [NewWorkflowExecutor]. *)
Definition FlakyExecutor : NodeExecutor :=
  mkNodeExecutor (λ _ _ e, ((VNil, Some "boom"), e)).

Definition flaky_registry : WorkflowExecutor :=
  mkWorkflowExecutor (<["flaky" := FlakyExecutor]> (nodeExecutors NewWorkflowExecutor)).

Definition wf_flaky : Workflow :=
  demo_workflow [demo_node "a" NodeWebhook; demo_node "b" "flaky";
                 demo_node "c" NodeDatabase; demo_node "d" NodeEmail]
                [mkConnection "c1" "a" "b"; mkConnection "c2" "b" "c";
                 mkConnection "c3" "c" "d"].

(** The world at the start of the loop of [Execute] on [wf_flaky]. *)
Definition loop_world : World :=
  mkWorld (mkEnv 9%Z [3; 5; 8]%Z) (<["wf-1" := 0]> ∅) [wf_flaky]
          [initial_result wf_flaky 7%Z] [].

(** ** The workflow store (main.go, lines 83-150)

    The world holds the one engine of the program.  The write lock of the
    store operations has no effect on a single call and is left out. *)

Definition set_workflows (m : gmap string nat) (w : World) : World :=
  mkWorld (env w) m (wf_heap w) (res_heap w) (calls w).
Definition set_wf_heap (h : list Workflow) (w : World) : World :=
  mkWorld (env w) (workflows w) h (res_heap w) (calls w).

Definition set_wf_ID (id : string) (wf : Workflow) : Workflow :=
  mkWorkflow id (wf_Name wf) (wf_Description wf) (wf_Nodes wf) (wf_Connections wf)
             (wf_CreatedAt wf) (wf_UpdatedAt wf) (wf_Status wf).
Definition set_wf_CreatedAt (t : Time) (wf : Workflow) : Workflow :=
  mkWorkflow (wf_ID wf) (wf_Name wf) (wf_Description wf) (wf_Nodes wf) (wf_Connections wf)
             t (wf_UpdatedAt wf) (wf_Status wf).
Definition set_wf_UpdatedAt (t : Time) (wf : Workflow) : Workflow :=
  mkWorkflow (wf_ID wf) (wf_Name wf) (wf_Description wf) (wf_Nodes wf) (wf_Connections wf)
             (wf_CreatedAt wf) t (wf_Status wf).
Definition set_wf_Status (st : string) (wf : Workflow) : Workflow :=
  mkWorkflow (wf_ID wf) (wf_Name wf) (wf_Description wf) (wf_Nodes wf) (wf_Connections wf)
             (wf_CreatedAt wf) (wf_UpdatedAt wf) st.

(** An assignment to a field of [*w]. *)
Definition modify_workflow (p : nat) (f : Workflow -> Workflow) : M unit :=
  fun w => match wf_heap w !! p with
           | Some wf => Some (tt, set_wf_heap (<[p := f wf]> (wf_heap w)) w)
           | None => None
           end.

(** [we.workflows[id] = w] *)
Definition store_put (id : string) (p : nat) : M unit :=
  fun w => Some (tt, set_workflows (<[id := p]> (workflows w)) w).

(** [delete(we.workflows, id)] *)
Definition store_delete (id : string) : M unit :=
  fun w => Some (tt, set_workflows (delete id (workflows w)) w).

(** [_, exists := we.workflows[id]] *)
Definition store_exists (id : string) : M bool :=
  fun w => Some (bool_decide (is_Some (workflows w !! id)), w).

(** [NewWorkflowEngine] (lines 83-88): an empty map and the executor of
    [NewWorkflowExecutor]. *)
Definition NewWorkflowEngine : M WorkflowExecutor :=
  fun w => Some (NewWorkflowExecutor, set_workflows ∅ w).

(** [CreateWorkflow] (lines 90-103).  [uuid] is the string that
    [uuid.New().String()] returns when it is called. *)
Definition CreateWorkflow (uuid : string) (p : nat) : M error :=
  wf ← deref_workflow p;
  (if bool_decide (wf_ID wf = "") then modify_workflow p (set_wf_ID uuid) else ret tt) ;;
  now ← time_Now;
  modify_workflow p (set_wf_CreatedAt now) ;;
  now ← time_Now;
  modify_workflow p (set_wf_UpdatedAt now) ;;
  modify_workflow p (set_wf_Status "inactive") ;;
  wf ← deref_workflow p;
  store_put (wf_ID wf) p ;;
  ret None.

(** [UpdateWorkflow] (lines 116-127). *)
Definition UpdateWorkflow (p : nat) : M error :=
  wf ← deref_workflow p;
  exists_ ← store_exists (wf_ID wf);
  if negb exists_ then ret (Some "workflow not found")
  else
    now ← time_Now;
    modify_workflow p (set_wf_UpdatedAt now) ;;
    wf ← deref_workflow p;
    store_put (wf_ID wf) p ;;
    ret None.

(** [DeleteWorkflow] (lines 129-139). *)
Definition DeleteWorkflow (id : string) : M error :=
  exists_ ← store_exists id;
  if negb exists_ then ret (Some "workflow not found")
  else store_delete id ;; ret None.

(** [ListWorkflows] (lines 141-150).  The loop ranges over a Go map, whose
    iteration order is not specified: every entry is visited once, in some
    order.  [ListWorkflows w l] holds when [l] is a slice the call can
    return in world [w]. *)
Definition ListWorkflows (w : World) (l : list nat) : Prop :=
  l ≡ₚ (map_to_list (workflows w)).*2.

(** The stored pointers refer to allocated workflows, each filed under its
    own identifier, and no workflow is filed under the empty identifier. *)
Definition store_inv (w : World) : Prop :=
  workflows w !! "" = None ∧
  ∀ id p, workflows w !! id = Some p ->
          ∃ wf, wf_heap w !! p = Some wf ∧ wf_ID wf = id.

(** The identifier [CreateWorkflow] files a workflow under. *)
Definition created_ID (uuid : string) (wf : Workflow) : string :=
  if bool_decide (wf_ID wf = "") then uuid else wf_ID wf.

(** The workflow object as [CreateWorkflow] leaves it, [created] and
    [updated] being its two readings of the clock. *)
Definition created_workflow (uuid : string) (created updated : Time) (wf : Workflow)
  : Workflow :=
  mkWorkflow (created_ID uuid wf) (wf_Name wf) (wf_Description wf) (wf_Nodes wf)
             (wf_Connections wf) created updated "inactive".

(** A workflow as a client may submit it: no identifier, its own status
    and timestamps. *)
Definition wf_draft : Workflow :=
  mkWorkflow "" "draft" "" [demo_node "a" NodeWebhook; demo_node "t" NodeTimer] []
             3%Z 4%Z "active".

(** A world in which [wf_draft] is allocated and the store holds [wf_mixed]
    under "wf-1". *)
Definition draft_world : World :=
  mkWorld (mkEnv 7%Z [2; 3; 5; 8]%Z) (<["wf-1" := 0]> ∅) [wf_mixed; wf_draft] [] [].

(** A timer node with the given interval. *)
Definition timer_node (interval : float64) : Node :=
  mkNode "t" NodeTimer "wait" float64_zero float64_zero
         (<["interval" := VFloat interval]> ∅).

(** Two nodes with the same identifier. *)
Definition wf_twins : Workflow :=
  demo_workflow [demo_node "a" NodeWebhook; demo_node "a" NodeEmail;
                 demo_node "a" NodeDatabase] [].

(** ** The HTTP handlers (main.go, lines 337-413)

    A handler is modelled between the two libraries it sits on.  Its input
    is what gorilla/mux and encoding/json hand to it: the path variable
    [id] and the outcome of decoding the request body into a [Workflow],
    the text of the decode error ([inl]) or the decoded value ([inr]).  Its
    output is what it writes to the [http.ResponseWriter]: the status code,
    the content type and the body, where a body written by
    [json.NewEncoder(w).Encode(v)] is the value [v] itself.  The engine of
    the server is the one [NewWorkflowEngine] builds, so its executor is
    [NewWorkflowExecutor]. *)

Inductive Body :=
| BodyNone
| BodyText (s : string)
| BodyNull
| BodyWorkflow (wf : Workflow)
| BodyResult (r : ExecutionResult).

Record Response := mkResponse {
  resp_status : nat;
  resp_content_type : option string;
  resp_body : Body
}.

Definition StatusOK : nat := 200.
Definition StatusNoContent : nat := 204.
Definition StatusBadRequest : nat := 400.
Definition StatusNotFound : nat := 404.
Definition StatusInternalServerError : nat := 500.

Definition newline : string := String (Ascii.ascii_of_nat 10) EmptyString.

(** [http.Error(w, msg, code)]: a plain-text body, the message and a
    newline. *)
Definition http_Error (msg : string) (code : nat) : Response :=
  mkResponse code (Some "text/plain; charset=utf-8") (BodyText (msg +:+ newline)).

(** [w.Header().Set("Content-Type", "application/json")] followed by
    [json.NewEncoder(w).Encode(v)]: the first write sends status 200. *)
Definition json_response (v : Body) : Response :=
  mkResponse StatusOK (Some "application/json") v.

(** [var workflow Workflow], filled by the decoder; its address escapes to
    the engine. *)
Definition new_workflow (wf : Workflow) : M nat :=
  fun w => Some (length (wf_heap w), set_wf_heap (wf_heap w ++ [wf]) w).

Definition handleCreateWorkflow (uuid : string) (body : string + Workflow) : M Response :=
  match body with
  | inl err => ret (http_Error err StatusBadRequest)
  | inr decoded =>
      workflow ← new_workflow decoded;
      err ← CreateWorkflow uuid workflow;
      match err with
      | Some msg => ret (http_Error msg StatusInternalServerError)
      | None => wf ← deref_workflow workflow; ret (json_response (BodyWorkflow wf))
      end
  end.

Definition handleGetWorkflow (id : string) : M Response :=
  '(workflow, err) ← GetWorkflow id;
  match err with
  | Some msg => ret (http_Error msg StatusNotFound)
  | None =>
      match workflow with
      | Some p => wf ← deref_workflow p; ret (json_response (BodyWorkflow wf))
      | None => ret (json_response BodyNull)
      end
  end.

(** [handleUpdateWorkflow] does not read the path variable. *)
Definition handleUpdateWorkflow (body : string + Workflow) : M Response :=
  match body with
  | inl err => ret (http_Error err StatusBadRequest)
  | inr decoded =>
      workflow ← new_workflow decoded;
      err ← UpdateWorkflow workflow;
      match err with
      | Some msg => ret (http_Error msg StatusInternalServerError)
      | None => wf ← deref_workflow workflow; ret (json_response (BodyWorkflow wf))
      end
  end.

Definition handleDeleteWorkflow (id : string) : M Response :=
  err ← DeleteWorkflow id;
  match err with
  | Some msg => ret (http_Error msg StatusNotFound)
  | None => ret (mkResponse StatusNoContent None BodyNone)
  end.

Definition handleExecuteWorkflow (id : string) : M Response :=
  '(result, err) ← ExecuteWorkflow NewWorkflowExecutor id;
  match err with
  | Some msg => ret (http_Error msg StatusInternalServerError)
  | None =>
      match result with
      | Some p => r ← load_result p; ret (json_response (BodyResult r))
      | None => ret (json_response BodyNull)
      end
  end.

(** A workflow with a timer of one and a half seconds. *)
Definition wf_timer : Workflow :=
  demo_workflow [demo_node "a" NodeWebhook; timer_node (S754_finite false 3 (-1))] [].


(** Two nodes of registered types with the same identifier. *)
Definition wf_same_id : Workflow :=
  demo_workflow [demo_node "a" NodeWebhook; demo_node "a" NodeEmail] [].

(** * Lemmas *)

Section Monad.
Context {A B : Type}.

Lemma bind_Some (m : M A) (k : A -> M B) w a w' :
  m w = Some (a, w') -> (m ≫= k) w = k a w'.
Proof. intros H. unfold mbind, M_bind, bind. now rewrite H. Qed.

Lemma bind_None (m : M A) (k : A -> M B) w :
  m w = None -> (m ≫= k) w = None.
Proof. intros H. unfold mbind, M_bind, bind. now rewrite H. Qed.

End Monad.

Lemma world_eta w :
  mkWorld (env w) (workflows w) (wf_heap w) (res_heap w) (calls w) = w.
Proof. now destruct w. Qed.

Lemma world_of_id w p r :
  res_heap w !! p = Some r -> world_of w p (loop_state w r) = w.
Proof.
  intros H. unfold world_of, loop_state. simpl.
  rewrite list_insert_id by exact H. apply world_eta.
Qed.

Lemma modify_result_world_of w p s f :
  p < length (res_heap w) ->
  modify_result p f (world_of w p s)
  = Some (tt, world_of w p (mkLoopState (ls_env s) (f (ls_result s)) (ls_calls s))).
Proof.
  intros Hp. unfold modify_result, world_of. simpl.
  rewrite list_lookup_insert_eq by exact Hp.
  unfold set_res_heap. simpl. now rewrite list_insert_insert_eq.
Qed.

Lemma Execute_node_step we p n w s :
  p < length (res_heap w) ->
  Execute_node we p n (world_of w p s) = Some (tt, world_of w p (step we s n)).
Proof.
  intros Hp. unfold Execute_node, step.
  destruct (nodeExecutors we !! node_Type n) as [ex|].
  - unfold mbind, M_bind, bind, call_executor. simpl.
    destruct (executor_Execute ex n VNil (ls_env s)) as [[out [msg|]] e'];
      apply (modify_result_world_of w p (mkLoopState e' (ls_result s) (ls_calls s ++ [(n, VNil)])));
      exact Hp.
  - now apply modify_result_world_of.
Qed.

Lemma Execute_loop_run we p graph : ∀ w s,
  p < length (res_heap w) ->
  Execute_loop we p graph (world_of w p s) = Some (tt, world_of w p (run we s graph)).
Proof.
  induction graph as [|n rest IH]; intros w s Hp.
  - reflexivity.
  - simpl. erewrite bind_Some by (apply Execute_node_step; exact Hp).
    now apply IH.
Qed.

Lemma Execute_loop_spec we p graph w r :
  res_heap w !! p = Some r ->
  Execute_loop we p graph w
  = Some (tt, world_of w p (run we (loop_state w r) graph)).
Proof.
  intros H.
  rewrite <- (world_of_id w p r H) at 1.
  apply Execute_loop_run. now apply lookup_lt_Some in H.
Qed.

Lemma Execute_begin_spec wp w wf :
  wf_heap w !! wp = Some wf ->
  Execute_begin wp w
  = Some ((length (res_heap w), buildExecutionGraph wf), begin_world w wf).
Proof.
  intros H. unfold Execute_begin, mbind, M_bind, bind, deref_workflow.
  now rewrite H.
Qed.

Lemma Execute_end_spec p w r :
  res_heap w !! p = Some r ->
  Execute_end p w
  = Some (tt, set_res_heap (<[p := finish (clock (env w)) r]> (res_heap w))
                           (set_env (tick (env w)) w)).
Proof.
  intros H. pose proof (lookup_lt_Some _ _ _ H) as Hp.
  unfold Execute_end, mbind, M_bind, bind, time_Now, modify_result, load_result.
  simpl. rewrite H. simpl. rewrite list_lookup_insert_eq by exact Hp.
  unfold finish. simpl.
  destruct (bool_decide (0 < length (Errors r))); simpl;
    rewrite list_lookup_insert_eq by exact Hp;
    unfold set_res_heap; simpl; now rewrite list_insert_insert_eq.
Qed.

Lemma insert_snoc {A} (l : list A) (x y : A) :
  <[length l := y]> (l ++ [x]) = l ++ [y].
Proof.
  rewrite insert_app_r_alt by lia. now rewrite Nat.sub_diag.
Qed.

Lemma lookup_snoc {A} (l : list A) (x : A) :
  (l ++ [x]) !! length l = Some x.
Proof. rewrite lookup_app_r by lia. now rewrite Nat.sub_diag. Qed.

Lemma Execute_spec we wp w wf :
  wf_heap w !! wp = Some wf ->
  Execute we wp w = Some ((Some (length (res_heap w)), None), final_world we w wf).
Proof.
  intros H. unfold Execute.
  erewrite bind_Some by (apply Execute_begin_spec; exact H).
  cbv beta iota.
  set (r0 := initial_result wf (clock (env w))).
  set (w1 := begin_world w wf).
  assert (H1 : res_heap w1 !! length (res_heap w) = Some r0) by apply lookup_snoc.
  erewrite bind_Some by (apply (Execute_loop_spec we _ _ w1 r0 H1)).
  cbv beta iota.
  change (loop_state w1 r0) with (start_state w wf).
  set (s := run we (start_state w wf) (buildExecutionGraph wf)).
  assert (H2 : res_heap (world_of w1 (length (res_heap w)) s) !! length (res_heap w)
               = Some (ls_result s)).
  { simpl. rewrite insert_snoc. apply lookup_snoc. }
  erewrite bind_Some by (apply Execute_end_spec; exact H2).
  cbv beta iota.
  unfold ret, final_world, loop_result. fold s.
  unfold set_res_heap. simpl. now rewrite !insert_snoc.
Qed.

(** ** Properties of the fold *)

Lemma run_app we s l1 l2 : run we s (l1 ++ l2) = run we (run we s l1) l2.
Proof. apply foldl_app. Qed.

Lemma run_snoc we s l n : run we s (l ++ [n]) = step we (run we s l) n.
Proof. now rewrite run_app. Qed.

(** An induction principle on the fold: a property that holds at the start
    and that every step preserves holds at the end. *)
Lemma run_ind we (P : LoopState -> Prop) s graph :
  P s -> (∀ s' n, n ∈ graph -> P s' -> P (step we s' n)) -> P (run we s graph).
Proof.
  revert s. induction graph as [|n rest IH]; intros s H0 Hstep; [exact H0|].
  simpl. apply IH.
  - apply Hstep; [left | exact H0].
  - intros s' m Hm. apply Hstep. now right.
Qed.

Lemma step_fields we s n :
  let r := ls_result s in
  let r' := ls_result (step we s n) in
  WorkflowID r' = WorkflowID r ∧ Status r' = Status r ∧
  StartTime r' = StartTime r ∧ EndTime r' = EndTime r.
Proof.
  unfold step. destruct (nodeExecutors we !! node_Type n) as [ex|]; [|easy].
  destruct (executor_Execute ex n VNil (ls_env s)) as [[out [msg|]] e']; easy.
Qed.

Lemma run_Status we s graph :
  Status (ls_result (run we s graph)) = Status (ls_result s).
Proof.
  apply (run_ind we (λ s', Status (ls_result s') = Status (ls_result s))); [easy|].
  intros s' n _ IH. rewrite <- IH. apply step_fields.
Qed.

Lemma step_calls we s n :
  ls_calls (step we s n)
  = ls_calls s ++ map (λ m, (m, VNil)) (filter (registered we) [n]).
Proof.
  unfold step. rewrite filter_cons, filter_nil.
  destruct (decide (registered we n)) as [[ex E]|E].
  - rewrite E.
    destruct (executor_Execute ex n VNil (ls_env s)) as [[out [msg|]] e']; easy.
  - apply eq_None_not_Some in E. rewrite E. simpl. now rewrite app_nil_r.
Qed.

Lemma run_calls we graph : ∀ s,
  ls_calls (run we s graph)
  = ls_calls s ++ map (λ m, (m, VNil)) (filter (registered we) graph).
Proof.
  induction graph as [|n rest IH]; intros s.
  - simpl. now rewrite app_nil_r.
  - simpl. rewrite IH, step_calls.
    change (n :: rest) with ([n] ++ rest).
    now rewrite filter_app, map_app, app_assoc.
Qed.

Lemma world_of_lookup w p s :
  p < length (res_heap w) -> res_heap (world_of w p s) !! p = Some (ls_result s).
Proof. intros Hp. simpl. now apply list_lookup_insert_eq. Qed.

(** The three phases of [Execute], with the worlds between them. *)
Lemma Execute_phases we wp w wf :
  wf_heap w !! wp = Some wf ->
  let p := length (res_heap w) in
  let r0 := initial_result wf (clock (env w)) in
  let w1 := begin_world w wf in
  Execute_begin wp w = Some ((p, buildExecutionGraph wf), w1) ∧
  res_heap w1 !! p = Some r0 ∧
  (∀ g, Execute_loop we p g w1 = Some (tt, world_of w1 p (loop_result we w wf g)) ∧
        res_heap (world_of w1 p (loop_result we w wf g)) !! p
        = Some (ls_result (loop_result we w wf g))) ∧
  Execute_end p (world_of w1 p (loop_result we w wf (buildExecutionGraph wf)))
  = Some (tt, final_world we w wf) ∧
  Execute we wp w = Some ((Some p, None), final_world we w wf).
Proof.
  intros H p r0 w1.
  assert (H1 : res_heap w1 !! p = Some r0) by apply lookup_snoc.
  assert (Hp : p < length (res_heap w1)) by now apply lookup_lt_Some in H1.
  split; [now apply Execute_begin_spec|].
  split; [exact H1|].
  split; [|split].
  - intros g. split.
    + apply (Execute_loop_spec we p g w1 r0 H1).
    + now apply world_of_lookup.
  - erewrite Execute_end_spec by (now apply world_of_lookup).
    unfold final_world, set_res_heap. simpl.
    subst p. now rewrite !insert_snoc.
  - now apply Execute_spec.
Qed.

Lemma final_world_result we w wf :
  res_heap (final_world we w wf) !! length (res_heap w)
  = Some (let s := loop_result we w wf (buildExecutionGraph wf) in
          finish (clock (ls_env s)) (ls_result s)).
Proof. apply lookup_snoc. Qed.

Lemma finish_fields now r :
  WorkflowID (finish now r) = WorkflowID r ∧ StartTime (finish now r) = StartTime r ∧
  EndTime (finish now r) = now ∧ Results (finish now r) = Results r ∧
  Errors (finish now r) = Errors r.
Proof. unfold finish. now destruct (bool_decide _). Qed.

Lemma finish_Status now r :
  (Status (finish now r) = "completed" ↔ Errors r = []) ∧
  (Status (finish now r) = "failed" ↔ Errors r ≠ []).
Proof.
  unfold finish. simpl.
  case_bool_decide as Hd; simpl; destruct (Errors r) as [|e l]; simpl in Hd;
    (split; split; intros; (easy || lia)).
Qed.

(** * The terminal status *)

(** C5. [Execute] allocates the result with status "running"; the status is
    still "running" after every prefix of the plan; when the plan is
    exhausted the end timestamp is the clock reading taken then and the
    status becomes "completed" if and only if the error list is empty and
    "failed" otherwise. *)
Theorem Execute_terminal_status we wp w wf :
  wf_heap w !! wp = Some wf ->
  ∃ p graph w1 w2 w3 r2 r3,
    Execute_begin wp w = Some ((p, graph), w1) ∧
    (∀ k, ∃ wk rk,
        Execute_loop we p (take k graph) w1 = Some (tt, wk) ∧
        res_heap wk !! p = Some rk ∧ Status rk = "running") ∧
    Execute_loop we p graph w1 = Some (tt, w2) ∧
    res_heap w2 !! p = Some r2 ∧
    Execute_end p w2 = Some (tt, w3) ∧
    Execute we wp w = Some ((Some p, None), w3) ∧
    res_heap w3 !! p = Some r3 ∧
    EndTime r3 = clock (env w2) ∧
    Errors r3 = Errors r2 ∧
    (Status r3 = "completed" ↔ Errors r3 = []) ∧
    (Status r3 = "failed" ↔ Errors r3 ≠ []).
Proof.
  intros H.
  destruct (Execute_phases we wp w wf H) as (Hb & _ & Hloop & He & Hx).
  pose (g := buildExecutionGraph wf).
  pose (s := loop_result we w wf g).
  exists (length (res_heap w)), g,
    (begin_world w wf),
    (world_of (begin_world w wf)
       (length (res_heap w)) s),
    (final_world we w wf), (ls_result s), (finish (clock (ls_env s)) (ls_result s)).
  split; [exact Hb|].
  split.
  { intros k. destruct (Hloop (take k g)) as [Hk Hr].
    eexists _, _. split; [exact Hk|]. split; [exact Hr|].
    unfold loop_result. now rewrite run_Status. }
  destruct (Hloop g) as [Hg Hr].
  split; [exact Hg|]. split; [exact Hr|]. split; [exact He|]. split; [exact Hx|].
  split; [apply final_world_result|].
  destruct (finish_fields (clock (ls_env s)) (ls_result s)) as (_ & _ & Ht & _ & Herr).
  split; [exact Ht|]. split; [exact Herr|].
  rewrite Herr. apply finish_Status.
Qed.

Lemma Execute_terminal_status_witness :
  wf_heap (demo_world wf_mixed) !! 0 = Some wf_mixed ∧
  ∃ p graph w1 w2 w3 r2 r3,
    Execute_begin 0 (demo_world wf_mixed) = Some ((p, graph), w1) ∧
    (∀ k, ∃ wk rk,
        Execute_loop NewWorkflowExecutor p (take k graph) w1 = Some (tt, wk) ∧
        res_heap wk !! p = Some rk ∧ Status rk = "running") ∧
    Execute_loop NewWorkflowExecutor p graph w1 = Some (tt, w2) ∧
    res_heap w2 !! p = Some r2 ∧
    Execute_end p w2 = Some (tt, w3) ∧
    Execute NewWorkflowExecutor 0 (demo_world wf_mixed) = Some ((Some p, None), w3) ∧
    res_heap w3 !! p = Some r3 ∧
    EndTime r3 = clock (env w2) ∧
    Errors r3 = Errors r2 ∧
    (Status r3 = "completed" ↔ Errors r3 = []) ∧
    (Status r3 = "failed" ↔ Errors r3 ≠ []).
Proof.
  split; [reflexivity|].
  apply (Execute_terminal_status NewWorkflowExecutor 0 (demo_world wf_mixed) wf_mixed).
  reflexivity.
Defined.

(** * The engine boundary *)

Lemma ExecuteWorkflow_not_found we id w :
  workflows w !! id = None ->
  ExecuteWorkflow we id w = Some ((None, Some "workflow not found"), w).
Proof.
  intros H. unfold ExecuteWorkflow, mbind, M_bind, bind, GetWorkflow.
  now rewrite H.
Qed.

Lemma ExecuteWorkflow_found we id w p :
  workflows w !! id = Some p ->
  ExecuteWorkflow we id w = Execute we p w.
Proof.
  intros H. unfold ExecuteWorkflow, mbind, M_bind, bind, GetWorkflow.
  now rewrite H.
Qed.

(** C10. [Execute] returns a pointer to an allocated result and a nil error
    for every workflow; [ExecuteWorkflow] returns, and its error is non-nil
    exactly when the identifier is not in the store, in which case the
    result pointer is nil and the world is left as it was (no result is
    allocated and no executor is called). *)
Theorem Execute_never_errs we :
  (∀ wp w wf, wf_heap w !! wp = Some wf ->
     ∃ p w', Execute we wp w = Some ((Some p, None), w') ∧
             is_Some (res_heap w' !! p)) ∧
  (∀ id w, store_ok w ->
     ∃ res err w', ExecuteWorkflow we id w = Some ((res, err), w') ∧
       (err ≠ None ↔ workflows w !! id = None) ∧
       (err ≠ None -> res = None ∧ w' = w) ∧
       (err = None -> ∃ p, res = Some p ∧ is_Some (res_heap w' !! p))).
Proof.
  split.
  - intros wp w wf H. exists (length (res_heap w)), (final_world we w wf).
    split; [apply Execute_spec; exact H|].
    rewrite final_world_result. now eexists.
  - intros id w Hok. destruct (workflows w !! id) as [wp|] eqn:E.
    + destruct (Hok id wp E) as [wf Hwf].
      exists (Some (length (res_heap w))), None, (final_world we w wf).
      rewrite (ExecuteWorkflow_found we id w wp E).
      split; [apply Execute_spec; exact Hwf|].
      split; [easy|]. split; [easy|].
      intros _. eexists. split; [reflexivity|].
      rewrite final_world_result. now eexists.
    + exists None, (Some "workflow not found"), w.
      split; [now apply ExecuteWorkflow_not_found|]. easy.
Qed.

Lemma demo_world_store_ok wf : store_ok (demo_world wf).
Proof.
  intros id p H. cbn [demo_world workflows] in H.
  apply lookup_insert_Some in H. destruct H as [[_ <-]|[_ H]].
  - exists wf. reflexivity.
  - rewrite lookup_empty in H. discriminate.
Qed.

Lemma Execute_never_errs_witness :
  (wf_heap (demo_world wf_mixed) !! 0 = Some wf_mixed ∧
   ∃ p w', Execute NewWorkflowExecutor 0 (demo_world wf_mixed)
           = Some ((Some p, None), w') ∧ is_Some (res_heap w' !! p)) ∧
  (store_ok (demo_world wf_mixed) ∧
   ∃ res err w',
     ExecuteWorkflow NewWorkflowExecutor "missing" (demo_world wf_mixed)
     = Some ((res, err), w') ∧
     (err ≠ None ↔ workflows (demo_world wf_mixed) !! "missing" = None) ∧
     (err ≠ None -> res = None ∧ w' = demo_world wf_mixed) ∧
     (err = None -> ∃ p, res = Some p ∧ is_Some (res_heap w' !! p))).
Proof.
  split.
  - split; [reflexivity|].
    apply (proj1 (Execute_never_errs NewWorkflowExecutor) 0 (demo_world wf_mixed) wf_mixed).
    reflexivity.
  - split; [apply demo_world_store_ok|].
    apply (proj2 (Execute_never_errs NewWorkflowExecutor) "missing" (demo_world wf_mixed)).
    apply demo_world_store_ok.
Defined.

(** * The stored workflow and earlier results are left alone *)

Lemma Execute_nil_dereference we wp w :
  wf_heap w !! wp = None -> Execute we wp w = None.
Proof.
  intros H. unfold Execute. apply bind_None.
  unfold Execute_begin. apply bind_None.
  unfold deref_workflow. now rewrite H.
Qed.

(** Whatever [ExecuteWorkflow] returns, the engine's map and every stored
    workflow are as before, and every result allocated before is as before. *)
Lemma ExecuteWorkflow_frame we id w res w' :
  ExecuteWorkflow we id w = Some (res, w') ->
  workflows w' = workflows w ∧ wf_heap w' = wf_heap w ∧
  ∀ q r, res_heap w !! q = Some r -> res_heap w' !! q = Some r.
Proof.
  intros H. destruct (workflows w !! id) as [wp|] eqn:E.
  - rewrite (ExecuteWorkflow_found we id w wp E) in H.
    destruct (wf_heap w !! wp) as [wf|] eqn:Ewf.
    + rewrite (Execute_spec we wp w wf Ewf) in H. injection H as _ <-.
      split; [reflexivity|]. split; [reflexivity|].
      intros q r Hq. simpl. now apply lookup_app_l_Some.
    + now rewrite Execute_nil_dereference in H.
  - rewrite (ExecuteWorkflow_not_found we id w E) in H. now injection H as _ <-.
Qed.

(** C8. Executing a stored workflow with the engine's executor, and
    executing it again, leaves the engine's map and the heap of workflows
    (so every field of every stored workflow) unchanged; each execution
    allocates a result object that did not exist before, the two objects are
    distinct, and the second execution leaves the first result, like every
    earlier result, as it was. *)
Theorem ExecuteWorkflow_preserves_workflow id w wp wf :
  workflows w !! id = Some wp ->
  wf_heap w !! wp = Some wf ->
  ∃ p1 w1 p2 w2,
    ExecuteWorkflow NewWorkflowExecutor id w = Some ((Some p1, None), w1) ∧
    ExecuteWorkflow NewWorkflowExecutor id w1 = Some ((Some p2, None), w2) ∧
    workflows w1 = workflows w ∧ wf_heap w1 = wf_heap w ∧
    workflows w2 = workflows w ∧ wf_heap w2 = wf_heap w ∧
    wf_heap w2 !! wp = Some wf ∧
    res_heap w !! p1 = None ∧ is_Some (res_heap w1 !! p1) ∧
    res_heap w1 !! p2 = None ∧ is_Some (res_heap w2 !! p2) ∧
    p1 ≠ p2 ∧
    res_heap w2 !! p1 = res_heap w1 !! p1 ∧
    (∀ q r, res_heap w !! q = Some r ->
            res_heap w1 !! q = Some r ∧ res_heap w2 !! q = Some r).
Proof.
  intros Hid Hwf.
  pose (we := NewWorkflowExecutor).
  pose (w1 := final_world we w wf).
  assert (Hid1 : workflows w1 !! id = Some wp) by exact Hid.
  assert (Hwf1 : wf_heap w1 !! wp = Some wf) by exact Hwf.
  pose (w2 := final_world we w1 wf).
  assert (H1 : ExecuteWorkflow we id w = Some ((Some (length (res_heap w)), None), w1)).
  { rewrite (ExecuteWorkflow_found we id w wp Hid). now apply Execute_spec. }
  assert (H2 : ExecuteWorkflow we id w1 = Some ((Some (length (res_heap w1)), None), w2)).
  { rewrite (ExecuteWorkflow_found we id w1 wp Hid1). now apply Execute_spec. }
  destruct (ExecuteWorkflow_frame _ _ _ _ _ H1) as (_ & _ & F1).
  destruct (ExecuteWorkflow_frame _ _ _ _ _ H2) as (_ & _ & F2).
  assert (Hp1 : is_Some (res_heap w1 !! length (res_heap w))).
  { unfold w1. rewrite final_world_result. now eexists. }
  exists (length (res_heap w)), w1, (length (res_heap w1)), w2.
  split; [exact H1|]. split; [exact H2|].
  do 4 (split; [reflexivity|]). split; [exact Hwf|].
  split; [apply lookup_ge_None; lia|]. split; [exact Hp1|].
  split; [apply lookup_ge_None; lia|].
  split; [unfold w2; rewrite final_world_result; now eexists|].
  split; [unfold w1; simpl; rewrite length_app; simpl; lia|].
  split.
  - destruct Hp1 as [r Hr]. rewrite Hr. now apply F2.
  - intros q r Hq. split; [now apply F1|]. apply F2. now apply F1.
Qed.

Lemma ExecuteWorkflow_preserves_workflow_witness :
  (workflows (demo_world wf_mixed) !! "wf-1" = Some 0 ∧
   wf_heap (demo_world wf_mixed) !! 0 = Some wf_mixed) ∧
  ∃ p1 w1 p2 w2,
    ExecuteWorkflow NewWorkflowExecutor "wf-1" (demo_world wf_mixed)
    = Some ((Some p1, None), w1) ∧
    ExecuteWorkflow NewWorkflowExecutor "wf-1" w1 = Some ((Some p2, None), w2) ∧
    wf_heap w2 = [wf_mixed] ∧ p1 ≠ p2 ∧
    res_heap w2 !! p1 = res_heap w1 !! p1.
Proof.
  split; [split; reflexivity|].
  destruct (ExecuteWorkflow_preserves_workflow "wf-1"
              (demo_world wf_mixed) 0 wf_mixed eq_refl eq_refl)
    as (p1 & w1 & p2 & w2 & H1 & H2 & _ & _ & _ & Hh & _ & _ & _ & _ & _ & Hne & Heq & _).
  exists p1, w1, p2, w2. repeat split; assumption.
Defined.

(** * What the coordinator does with the plan *)

Lemma step_Errors we s n :
  let old := Errors (ls_result s) in
  let new := Errors (ls_result (step we s n)) in
  (new = old ∧ registered we n) ∨
  (new = old ++ [dispatch_error n] ∧ ¬ registered we n) ∨
  (∃ msg, new = old ++ [executor_error n msg] ∧ registered we n).
Proof.
  unfold step. destruct (decide (registered we n)) as [[ex E]|E].
  - rewrite E.
    destruct (executor_Execute ex n VNil (ls_env s)) as [[out [msg|]] e']; simpl.
    + right. right. exists msg. split; [reflexivity | now exists ex].
    + left. split; [reflexivity | now exists ex].
  - pose proof E as E'. apply eq_None_not_Some in E'. rewrite E'. simpl.
    right. left. now split.
Qed.

Lemma run_Errors we graph s :
  ∃ new, Errors (ls_result (run we s graph)) = Errors (ls_result s) ++ new ∧
         Forall (per_node_error we graph) new.
Proof.
  apply (run_ind we (λ s', ∃ new,
           Errors (ls_result s') = Errors (ls_result s) ++ new ∧
           Forall (per_node_error we graph) new)).
  - exists []. now rewrite app_nil_r.
  - intros s' n Hn (new & Hnew & Hall).
    destruct (step_Errors we s' n) as [[-> _]|[[-> Hr]|(msg & -> & Hr)]].
    + now exists new.
    + exists (new ++ [dispatch_error n]). rewrite Hnew, app_assoc. split; [reflexivity|].
      apply Forall_app. split; [exact Hall|]. apply Forall_singleton.
      exists n. split; [exact Hn|]. left. now split.
    + exists (new ++ [executor_error n msg]). rewrite Hnew, app_assoc. split; [reflexivity|].
      apply Forall_app. split; [exact Hall|]. apply Forall_singleton.
      exists n. split; [exact Hn|]. right. split; [exact Hr | now exists msg].
Qed.

Lemma final_world_calls we w wf :
  calls (final_world we w wf)
  = calls w ++ map (λ n, (n, VNil)) (filter (registered we) (buildExecutionGraph wf)).
Proof. unfold final_world, loop_result. simpl. now rewrite run_calls. Qed.







(** * The input of a node executor *)

(** C6, as the code has it.  Every call of a node executor made by [Execute]
    passes nil as the input, for nodes with predecessors as for source
    nodes: the calls of a run are the registered nodes of the plan, in plan
    order, each with input nil. *)
Theorem Execute_passes_nil_input we wp w wf :
  wf_heap w !! wp = Some wf ->
  ∃ p w' new_calls,
    Execute we wp w = Some ((Some p, None), w') ∧
    calls w' = calls w ++ new_calls ∧
    new_calls = map (λ n, (n, VNil)) (filter (registered we) (buildExecutionGraph wf)) ∧
    Forall (λ c, c.2 = VNil) new_calls.
Proof.
  intros H.
  exists (length (res_heap w)), (final_world we w wf),
    (map (λ n, (n, VNil)) (filter (registered we) (buildExecutionGraph wf))).
  split; [now apply Execute_spec|].
  split; [apply final_world_calls|]. split; [reflexivity|].
  apply Forall_forall. intros c Hc. apply list_elem_of_fmap in Hc.
  now destruct Hc as (n & -> & _).
Qed.

Lemma Execute_passes_nil_input_witness :
  wf_heap (demo_world wf_chain) !! 0 = Some wf_chain ∧
  ∃ p w' new_calls,
    Execute NewWorkflowExecutor 0 (demo_world wf_chain) = Some ((Some p, None), w') ∧
    calls w' = calls (demo_world wf_chain) ++ new_calls ∧
    new_calls = map (λ n, (n, VNil))
                    (filter (registered NewWorkflowExecutor) (buildExecutionGraph wf_chain)) ∧
    Forall (λ c, c.2 = VNil) new_calls.
Proof.
  split; [reflexivity|].
  apply (Execute_passes_nil_input NewWorkflowExecutor 0 (demo_world wf_chain) wf_chain).
  reflexivity.
Defined.

(** C6 fails on the code.  In the chain a -> b the output of [a] is recorded
    when [b] is dispatched, yet the executor of [b] is called with nil, which
    is not the mapping of the outputs of the predecessors of [b]. *)
Lemma Execute_input_not_resolved :
  ∃ w1 w2 r2 w3,
    Execute_begin 0 (demo_world wf_chain)
    = Some ((0, [demo_node "a" NodeWebhook; demo_node "b" NodeHTTP]), w1) ∧
    Execute_loop NewWorkflowExecutor 0 [demo_node "a" NodeWebhook] w1 = Some (tt, w2) ∧
    res_heap w2 !! 0 = Some r2 ∧
    is_Some (Results r2 !! "a") ∧
    Execute_node NewWorkflowExecutor 0 (demo_node "b" NodeHTTP) w2 = Some (tt, w3) ∧
    calls w3 = calls w2 ++ [(demo_node "b" NodeHTTP, VNil)] ∧
    predecessors wf_chain "b" = ["a"] ∧
    ¬ input_as_specified wf_chain (Results r2) (demo_node "b" NodeHTTP) VNil.
Proof.
  eexists _, _, _, _.
  split; [reflexivity|]. split; [reflexivity|]. split; [reflexivity|].
  split; [vm_compute; now eexists|].
  split; [reflexivity|]. split; [reflexivity|]. split; [reflexivity|].
  intros [H|[H _]]; discriminate.
Qed.

(** * The six registered executors *)

Lemma registered_executors_succeed ex :
  ex ∈ registered_executors -> always_succeeds ex.
Proof.
  intros Hex n input e. unfold registered_executors in Hex.
  repeat (apply elem_of_cons in Hex; destruct Hex as [->|Hex];
          [eexists _, _; reflexivity|]).
  now apply elem_of_nil in Hex.
Qed.

Lemma NewWorkflowExecutor_lookup ty ex :
  nodeExecutors NewWorkflowExecutor !! ty = Some ex ->
  ty ∈ registered_types ∧ ex ∈ registered_executors.
Proof.
  unfold NewWorkflowExecutor, registered_types, registered_executors. simpl.
  repeat (rewrite lookup_insert_Some; intros [[<- <-]|[_ H]];
          [split; set_solver | revert H]).
  now rewrite lookup_empty.
Qed.

Lemma registered_types_lookup ty :
  ty ∈ registered_types -> is_Some (nodeExecutors NewWorkflowExecutor !! ty).
Proof.
  intros H. unfold registered_types in H.
  repeat (apply elem_of_cons in H; destruct H as [->|H]; [now eexists|]).
  now apply elem_of_nil in H.
Qed.

Lemma step_success we s n ex :
  nodeExecutors we !! node_Type n = Some ex -> always_succeeds ex ->
  ∃ m e', step we s n
          = mkLoopState e' (put_result (node_ID n) (VMap m) (ls_result s))
                        (ls_calls s ++ [(n, VNil)]).
Proof.
  intros E Hex. destruct (Hex n VNil (ls_env s)) as (m & e' & Hrun).
  exists m, e'. unfold step. now rewrite E, Hrun.
Qed.

Lemma run_success we s graph :
  (∀ n, n ∈ graph -> ∃ ex, nodeExecutors we !! node_Type n = Some ex ∧ always_succeeds ex) ->
  let r := ls_result (run we s graph) in
  Errors r = Errors (ls_result s) ∧
  dom (Results r) = dom (Results (ls_result s)) ∪ list_to_set (map node_ID graph) ∧
  ∀ n, n ∈ graph -> ∃ m, Results r !! node_ID n = Some (VMap m).
Proof.
  induction graph as [|n g IH] using rev_ind; intros Hall.
  - simpl. split; [reflexivity|]. split; [set_solver|]. intros n Hn.
    now apply elem_of_nil in Hn.
  - destruct IH as (IHe & IHd & IHr).
    { intros k Hk. apply Hall. apply elem_of_app. now left. }
    destruct (Hall n) as (ex & E & Hex); [apply elem_of_app; right; now left|].
    destruct (step_success we (run we s g) n ex E Hex) as (m & e' & Hstep).
    cbv zeta. rewrite run_snoc, Hstep. simpl.
    split; [exact IHe|]. split.
    + rewrite dom_insert_L, IHd, map_app, list_to_set_app_L. simpl. set_solver.
    + intros k Hk. destruct (decide (node_ID n = node_ID k)) as [Heq|Hne].
      * exists m. rewrite Heq. apply lookup_insert_eq.
      * rewrite lookup_insert_ne by exact Hne. apply IHr.
        apply elem_of_app in Hk. destruct Hk as [Hk|Hk]; [exact Hk|].
        apply list_elem_of_singleton in Hk. now subst.
Qed.

(** C9, as the code has it.  Each of the six executors that
    [NewWorkflowExecutor] registers returns a non-nil map and a nil error
    for every node, input and environment.  Hence for a workflow all of
    whose nodes have a registered type [Execute] returns a "completed"
    result with an empty error list in which there is an output, a map,
    under the identifier of every node; the keys of the output mapping are
    the node identifiers, so there is exactly one entry per node when the
    identifiers are distinct, and nodes that share an identifier share one
    entry. *)
Theorem registered_workflow_completes :
  (∀ ty, ty ∈ registered_types ->
     ∃ ex, nodeExecutors NewWorkflowExecutor !! ty = Some ex ∧
           ex ∈ registered_executors) ∧
  (∀ ex, ex ∈ registered_executors ->
     ∀ n input e, ∃ m e', executor_Execute ex n input e = ((VMap m, None), e')) ∧
  (∀ wp w wf,
     wf_heap w !! wp = Some wf ->
     (∀ n, n ∈ wf_Nodes wf -> node_Type n ∈ registered_types) ->
     ∃ p w' r,
       Execute NewWorkflowExecutor wp w = Some ((Some p, None), w') ∧
       res_heap w' !! p = Some r ∧
       Status r = "completed" ∧
       Errors r = [] ∧
       (∀ n, n ∈ wf_Nodes wf -> ∃ m, Results r !! node_ID n = Some (VMap m)) ∧
       dom (Results r) = list_to_set (map node_ID (wf_Nodes wf)) ∧
       (NoDup (map node_ID (wf_Nodes wf)) -> size (Results r) = length (wf_Nodes wf))).
Proof.
  split; [|split].
  - intros ty Hty. destruct (registered_types_lookup ty Hty) as [ex E].
    exists ex. split; [exact E|]. now apply (NewWorkflowExecutor_lookup ty).
  - exact registered_executors_succeed.
  - intros wp w wf H Hty.
    pose (s := loop_result NewWorkflowExecutor w wf (buildExecutionGraph wf)).
    exists (length (res_heap w)), (final_world NewWorkflowExecutor w wf),
      (finish (clock (ls_env s)) (ls_result s)).
    split; [now apply Execute_spec|]. split; [apply final_world_result|].
    destruct (run_success NewWorkflowExecutor
                (start_state w wf)
                (buildExecutionGraph wf)) as (He & Hd & Hr).
    { intros n Hn. destruct (registered_types_lookup _ (Hty n Hn)) as [ex E].
      exists ex. split; [exact E|].
      apply registered_executors_succeed. now apply (NewWorkflowExecutor_lookup _ _ E). }
    fold (loop_result NewWorkflowExecutor w wf (buildExecutionGraph wf)) in He, Hd, Hr.
    fold s in He, Hd, Hr. simpl in He, Hd.
    destruct (finish_fields (clock (ls_env s)) (ls_result s)) as (_ & _ & _ & -> & ->).
    split; [apply finish_Status; exact He|]. split; [exact He|].
    split; [exact Hr|].
    assert (Hdom : dom (Results (ls_result s)) = list_to_set (map node_ID (wf_Nodes wf))).
    { rewrite Hd. unfold buildExecutionGraph. set_solver. }
    split; [exact Hdom|].
    intros Hnd. rewrite <- size_dom, Hdom, size_list_to_set by exact Hnd.
    apply length_map.
Qed.

Lemma registered_workflow_completes_witness :
  (wf_heap (demo_world wf_webhook) !! 0 = Some wf_webhook ∧
   (∀ n, n ∈ wf_Nodes wf_webhook -> node_Type n ∈ registered_types)) ∧
  ∃ p w' r,
    Execute NewWorkflowExecutor 0 (demo_world wf_webhook) = Some ((Some p, None), w') ∧
    res_heap w' !! p = Some r ∧
    Status r = "completed" ∧
    Errors r = [] ∧
    (∃ m, Results r !! "n1" = Some (VMap m)) ∧
    size (Results r) = 1.
Proof.
  assert (Hty : ∀ n, n ∈ wf_Nodes wf_webhook -> node_Type n ∈ registered_types).
  { intros n Hn. apply list_elem_of_singleton in Hn. subst n. now left. }
  split; [split; [reflexivity | exact Hty]|].
  destruct (proj2 (proj2 registered_workflow_completes) 0 (demo_world wf_webhook)
              wf_webhook eq_refl Hty)
    as (p & w' & r & Hx & Hr & Hs & He & Hm & _ & Hsize).
  exists p, w', r. repeat (split; [assumption|]). split.
  - apply (Hm (mkNode "n1" NodeWebhook "hook" float64_zero float64_zero
                 (<["url" := VString "/hook"]> (<["method" := VString "POST"]> ∅)))).
    now left.
  - apply Hsize. apply NoDup_singleton.
Defined.

(** C9 fails on the code: a workflow with two nodes of registered types
    that carry the same identifier runs to "completed" without errors, but
    its output mapping has one entry for the two nodes. *)
Lemma registered_workflow_shares_entry :
  (∀ n, n ∈ wf_Nodes wf_same_id -> node_Type n ∈ registered_types) ∧
  length (wf_Nodes wf_same_id) = 2 ∧
  ∃ w' r,
    Execute NewWorkflowExecutor 0 (demo_world wf_same_id) = Some ((Some 0, None), w') ∧
    res_heap w' !! 0 = Some r ∧
    Status r = "completed" ∧ Errors r = [] ∧
    size (Results r) = 1 ∧
    size (Results r) ≠ length (wf_Nodes wf_same_id).
Proof.
  split.
  { intros n Hn. simpl in Hn. unfold registered_types.
    repeat (apply elem_of_cons in Hn; destruct Hn as [->|Hn]; [set_solver|]).
    now apply elem_of_nil in Hn. }
  split; [reflexivity|].
  exists (final_world NewWorkflowExecutor (demo_world wf_same_id) wf_same_id).
  eexists.
  split; [exact (Execute_spec NewWorkflowExecutor 0 (demo_world wf_same_id)
                   wf_same_id eq_refl)|].
  split; [exact (final_world_result NewWorkflowExecutor (demo_world wf_same_id)
                   wf_same_id)|].
  split; [reflexivity|]. split; [reflexivity|].
  split; [reflexivity|]. vm_compute. discriminate.
Qed.

(** * Continue on error *)

Lemma run_dispatch_error we graph : ∀ s m,
  m ∈ graph -> ¬ registered we m ->
  dispatch_error m ∈ Errors (ls_result (run we s graph)).
Proof.
  induction graph as [|k rest IH]; intros s m Hm Hr.
  - now apply elem_of_nil in Hm.
  - apply elem_of_cons in Hm. destruct Hm as [->|Hm]; [|now apply IH].
    simpl. destruct (run_Errors we rest (step we s k)) as (new & -> & _).
    apply elem_of_app. left.
    destruct (step_Errors we s k) as [[_ Hk]|[[-> _]|(msg & _ & Hk)]];
      [contradiction| |contradiction].
    apply elem_of_app. right. now left.
Qed.

Lemma step_Results_other we s n id :
  id ≠ node_ID n ->
  Results (ls_result (step we s n)) !! id = Results (ls_result s) !! id.
Proof.
  intros Hne. unfold step.
  destruct (nodeExecutors we !! node_Type n) as [ex|]; [|reflexivity].
  destruct (executor_Execute ex n VNil (ls_env s)) as [[out [msg|]] e']; [reflexivity|].
  simpl. now apply lookup_insert_ne.
Qed.

Lemma run_Results_other we graph id : ∀ s,
  id ∉ map node_ID graph ->
  Results (ls_result (run we s graph)) !! id = Results (ls_result s) !! id.
Proof.
  induction graph as [|k rest IH]; intros s Hid; [reflexivity|].
  simpl in *. apply not_elem_of_cons in Hid. destruct Hid as [Hne Hid].
  rewrite IH by exact Hid. now apply step_Results_other.
Qed.

Lemma step_fails_Results we s n :
  node_fails we n (ls_env s) ->
  Results (ls_result (step we s n)) = Results (ls_result s).
Proof.
  unfold node_fails, step.
  destruct (nodeExecutors we !! node_Type n) as [ex|]; [|reflexivity].
  destruct (executor_Execute ex n VNil (ls_env s)) as [[out [msg|]] e']; [reflexivity|].
  simpl. intros [x Hx]. discriminate.
Qed.

(** The loop over [pre ++ n :: post], cut at [n]. *)
Lemma Execute_loop_decompose we p w0 r0 pre n post :
  res_heap w0 !! p = Some r0 ->
  ∃ w1 r1 w2 r2 w3 r3,
    Execute_loop we p pre w0 = Some (tt, w1) ∧ res_heap w1 !! p = Some r1 ∧
    Execute_node we p n w1 = Some (tt, w2) ∧ res_heap w2 !! p = Some r2 ∧
    Execute_loop we p post w2 = Some (tt, w3) ∧ res_heap w3 !! p = Some r3 ∧
    Execute_loop we p (pre ++ n :: post) w0 = Some (tt, w3) ∧
    (nodeExecutors we !! node_Type n = None ->
       Errors r2 = Errors r1 ++ ["no executor for node type: " +:+ node_Type n] ∧
       Results r2 = Results r1 ∧ calls w2 = calls w1) ∧
    (∀ ex output msg e',
       nodeExecutors we !! node_Type n = Some ex ->
       executor_Execute ex n VNil (env w1) = ((output, Some msg), e') ->
       Errors r2 = Errors r1 ++ ["node " +:+ node_ID n +:+ " error: " +:+ msg] ∧
       Results r2 = Results r1 ∧ calls w2 = calls w1 ++ [(n, VNil)]) ∧
    calls w3 = calls w2 ++ map (λ m, (m, VNil)) (filter (registered we) post) ∧
    (∀ m, m ∈ post -> ¬ registered we m -> dispatch_error m ∈ Errors r3) ∧
    (∃ later, Errors r3 = Errors r2 ++ later ∧ Forall (per_node_error we post) later) ∧
    (node_fails we n (env w1) ->
     node_ID n ∉ map node_ID (pre ++ post) ->
     Results r0 !! node_ID n = None ->
     Results r3 !! node_ID n = None).
Proof.
  intros H0. pose proof (lookup_lt_Some _ _ _ H0) as Hp.
  pose (s1 := run we (loop_state w0 r0) pre).
  pose (s2 := step we s1 n).
  pose (s3 := run we s2 post).
  exists (world_of w0 p s1), (ls_result s1), (world_of w0 p s2), (ls_result s2),
    (world_of w0 p s3), (ls_result s3).
  split; [now apply Execute_loop_spec|]. split; [now apply world_of_lookup|].
  split; [now apply Execute_node_step|]. split; [now apply world_of_lookup|].
  split; [now apply Execute_loop_run|]. split; [now apply world_of_lookup|].
  split.
  { rewrite (Execute_loop_spec we p _ w0 r0 H0). now rewrite run_app. }
  split.
  { intros E. unfold s2, step. now rewrite E. }
  split.
  { intros ex output msg e' E Hrun. simpl in Hrun. unfold s2, step.
    now rewrite E, Hrun. }
  split; [apply run_calls|].
  split; [intros m Hm Hr; now apply run_dispatch_error|].
  split; [apply run_Errors|].
  intros Hf Hid Hnone. simpl in Hf.
  rewrite map_app in Hid. apply not_elem_of_app in Hid. destruct Hid as [Hpre Hpost].
  unfold s3. rewrite run_Results_other by exact Hpost.
  unfold s2. rewrite step_fails_Results by exact Hf.
  unfold s1. now rewrite run_Results_other by exact Hpre.
Qed.

(** C4. Let the plan of a workflow be [pre ++ n :: post].  [Execute] runs
    its loop over [pre], reaches [n], handles it, goes on over [post] to the
    end of the plan and returns the result.  If the type of [n] has no
    executor, handling [n] appends the one entry "no executor for node type:
    <type>", leaves the output mapping as it was and calls no executor; if
    the executor of [n] fails with [msg], it appends the one entry "node
    <id> error: <msg>" and leaves the output mapping as it was.  Afterwards
    every registered node of [post] is called, in order, every unregistered
    node of [post] has its entry in the error list, and the entries appended
    for [n] and before it stay.  The returned result has the error list and
    the output mapping the loop ends with; a node that failed or was skipped
    and whose identifier no other node of the plan carries has no entry in
    the returned output mapping. *)
Theorem Execute_continues_on_error we wp w wf pre n post :
  wf_heap w !! wp = Some wf ->
  buildExecutionGraph wf = pre ++ n :: post ->
  ∃ p w0 w1 r1 w2 r2 w3 r3 w4 r4,
    Execute_begin wp w = Some ((p, pre ++ n :: post), w0) ∧
    Execute_loop we p pre w0 = Some (tt, w1) ∧ res_heap w1 !! p = Some r1 ∧
    Execute_node we p n w1 = Some (tt, w2) ∧ res_heap w2 !! p = Some r2 ∧
    Execute_loop we p post w2 = Some (tt, w3) ∧ res_heap w3 !! p = Some r3 ∧
    Execute_end p w3 = Some (tt, w4) ∧ res_heap w4 !! p = Some r4 ∧
    Execute we wp w = Some ((Some p, None), w4) ∧
    Errors r4 = Errors r3 ∧ Results r4 = Results r3 ∧ calls w4 = calls w3 ∧
    (nodeExecutors we !! node_Type n = None ->
       Errors r2 = Errors r1 ++ ["no executor for node type: " +:+ node_Type n] ∧
       Results r2 = Results r1 ∧ calls w2 = calls w1) ∧
    (∀ ex output msg e',
       nodeExecutors we !! node_Type n = Some ex ->
       executor_Execute ex n VNil (env w1) = ((output, Some msg), e') ->
       Errors r2 = Errors r1 ++ ["node " +:+ node_ID n +:+ " error: " +:+ msg] ∧
       Results r2 = Results r1 ∧ calls w2 = calls w1 ++ [(n, VNil)]) ∧
    calls w3 = calls w2 ++ map (λ m, (m, VNil)) (filter (registered we) post) ∧
    (∀ m, m ∈ post -> ¬ registered we m -> dispatch_error m ∈ Errors r3) ∧
    (∃ later, Errors r3 = Errors r2 ++ later ∧ Forall (per_node_error we post) later) ∧
    (node_fails we n (env w1) ->
     node_ID n ∉ map node_ID (pre ++ post) ->
     Results r4 !! node_ID n = None).
Proof.
  intros H Hplan.
  destruct (Execute_phases we wp w wf H) as (Hb & H0 & Hloop & He & Hx).
  rewrite Hplan in Hb, He. destruct (Hloop (pre ++ n :: post)) as [Hall Hr].
  set (r0 := initial_result wf (clock (env w))) in *.
  set (w0 := begin_world w wf) in *.
  set (s := loop_result we w wf (pre ++ n :: post)) in *.
  destruct (Execute_loop_decompose we (length (res_heap w)) w0 r0 pre n post H0)
    as (w1 & r1 & w2 & r2 & w3 & r3 & H1 & Hr1 & H2 & Hr2 & H3 & Hr3 & Hall' &
        Hskip & Hfail & Hcalls & Hdisp & Hlater & Hnone).
  assert (Hw3 : w3 = world_of w0 (length (res_heap w)) s).
  { rewrite Hall in Hall'. now injection Hall'. }
  assert (Hr3' : r3 = ls_result s).
  { rewrite Hw3, Hr in Hr3. now injection Hr3. }
  pose proof (final_world_result we w wf) as Hr4. cbv zeta in Hr4.
  rewrite Hplan in Hr4. fold s in Hr4.
  destruct (finish_fields (clock (ls_env s)) (ls_result s)) as (_ & _ & _ & Hres & Herr).
  exists (length (res_heap w)), w0, w1, r1, w2, r2, w3, r3, (final_world we w wf),
    (finish (clock (ls_env s)) (ls_result s)).
  split; [exact Hb|].
  do 6 (split; [assumption|]).
  split; [rewrite Hw3; exact He|]. split; [exact Hr4|]. split; [exact Hx|].
  split; [now rewrite Herr, Hr3'|]. split; [now rewrite Hres, Hr3'|].
  split; [rewrite Hw3; unfold final_world; now rewrite Hplan|].
  do 5 (split; [assumption|]).
  intros Hf Hid. rewrite Hres, <- Hr3'. now apply Hnone.
Qed.

Lemma Execute_continues_on_error_witness :
  (wf_heap (demo_world wf_flaky) !! 0 = Some wf_flaky ∧
   buildExecutionGraph wf_flaky
   = [demo_node "a" NodeWebhook] ++ demo_node "b" "flaky"
       :: [demo_node "c" NodeDatabase; demo_node "d" NodeEmail]) ∧
  ∃ w1 r1 w2 r2 w3 w4 r4,
    Execute_node flaky_registry 0 (demo_node "b" "flaky") w1 = Some (tt, w2) ∧
    res_heap w1 !! 0 = Some r1 ∧ res_heap w2 !! 0 = Some r2 ∧
    Execute flaky_registry 0 (demo_world wf_flaky) = Some ((Some 0, None), w4) ∧
    res_heap w4 !! 0 = Some r4 ∧
    Errors r2 = Errors r1 ++ ["node b error: boom"] ∧
    Results r2 = Results r1 ∧
    calls w3 = calls w2 ++ [(demo_node "d" NodeEmail, VNil)] ∧
    calls w4 = calls w3 ∧
    "no executor for node type: database" ∈ Errors r4 ∧
    Results r4 !! "b" = None.
Proof.
  split; [split; reflexivity|].
  destruct (Execute_continues_on_error flaky_registry 0 (demo_world wf_flaky) wf_flaky
              [demo_node "a" NodeWebhook] (demo_node "b" "flaky")
              [demo_node "c" NodeDatabase; demo_node "d" NodeEmail] eq_refl eq_refl)
    as (p & w0 & w1 & r1 & w2 & r2 & w3 & r3 & w4 & r4 & Hb & H1 & Hr1 & H2 & Hr2 & _ &
        Hr3 & _ & Hr4 & Hx & Herr & _ & Hc4 & _ & Hfail & Hcalls & Hdisp & _ & Hnone).
  assert (Hp : p = 0) by (vm_compute in Hb; now injection Hb).
  subst p.
  assert (Hw0 : w0 = loop_world) by (vm_compute in Hb; now injection Hb).
  assert (Hw1 : w1 = world_of loop_world 0
                  (run flaky_registry (loop_state loop_world (initial_result wf_flaky 7%Z))
                       [demo_node "a" NodeWebhook])).
  { rewrite Hw0, (Execute_loop_spec flaky_registry 0 _ loop_world _ eq_refl) in H1.
    now injection H1. }
  destruct (Hfail FlakyExecutor VNil "boom" (env w1) eq_refl eq_refl)
    as (He & Hres & _).
  exists w1, r1, w2, r2, w3, w4, r4.
  repeat (split; [assumption|]).
  split.
  - rewrite Herr. apply (Hdisp (demo_node "c" NodeDatabase)).
    + now left.
    + intros [ex Hex]. vm_compute in Hex. discriminate.
  - apply Hnone.
    + rewrite Hw1. vm_compute. now eexists.
    + vm_compute. intros Hin.
      repeat (apply elem_of_cons in Hin; destruct Hin as [Heq|Hin]; [discriminate|]).
      now apply elem_of_nil in Hin.
Defined.

(** The run of [wf_mixed], whose second node has the unregistered type
    "database": the result is "failed" with the one entry for that node, the
    other two nodes have their outputs and were called. *)
Example Execute_unregistered_type :
  ∃ w' r,
    Execute NewWorkflowExecutor 0 (demo_world wf_mixed) = Some ((Some 0, None), w') ∧
    res_heap w' !! 0 = Some r ∧
    Status r = "failed" ∧
    Errors r = ["no executor for node type: database"] ∧
    Results r !! "b" = None ∧
    is_Some (Results r !! "a") ∧ is_Some (Results r !! "c") ∧
    map (λ c, node_ID c.1) (calls w') = ["a"; "c"].
Proof.
  exists (final_world NewWorkflowExecutor (demo_world wf_mixed) wf_mixed).
  eexists.
  split; [exact (Execute_spec NewWorkflowExecutor 0 (demo_world wf_mixed) wf_mixed eq_refl)|].
  split; [exact (final_world_result NewWorkflowExecutor (demo_world wf_mixed) wf_mixed)|].
  vm_compute. repeat split; now eexists.
Qed.

(** The chain a -> b -> c -> d of [wf_flaky] with the failing executor at b
    and the unregistered type at c: the run does not stop at b. *)
Example Execute_failing_executor :
  ∃ w' r,
    Execute flaky_registry 0 (demo_world wf_flaky) = Some ((Some 0, None), w') ∧
    res_heap w' !! 0 = Some r ∧
    Status r = "failed" ∧
    Errors r = ["node b error: boom"; "no executor for node type: database"] ∧
    dom (Results r) = {["a"; "d"]} ∧
    map (λ c, node_ID c.1) (calls w') = ["a"; "b"; "d"].
Proof.
  exists (final_world flaky_registry (demo_world wf_flaky) wf_flaky).
  eexists.
  split; [exact (Execute_spec flaky_registry 0 (demo_world wf_flaky) wf_flaky eq_refl)|].
  split; [exact (final_world_result flaky_registry (demo_world wf_flaky) wf_flaky)|].
  repeat split; reflexivity.
Qed.

(** * The graph builder *)

Lemma buildExecutionGraph_Permutation wf : buildExecutionGraph wf ≡ₚ wf_Nodes wf.
Proof. reflexivity. Qed.

Lemma wf_reversed_edge x y : edge wf_reversed x y -> x = "a" ∧ y = "b".
Proof.
  intros (c & Hc & <- & <-). apply list_elem_of_singleton in Hc. now subst c.
Qed.

Lemma wf_reversed_path x y : tc (edge wf_reversed) x y -> x = "a" ∧ y = "b".
Proof.
  induction 1 as [x y H|x y z H _ IH].
  - now apply wf_reversed_edge.
  - apply wf_reversed_edge in H. destruct H as [_ ->]. now destruct IH.
Qed.

(** C1 at a failing input.  The workflow with nodes b, a (in this storage
    order) and the connection a -> b is acyclic, has no dangling connection
    and distinct identifiers; [buildExecutionGraph] returns b, a, in which a
    does not precede b, and [Execute] calls b before a. *)
Theorem buildExecutionGraph_storage_order :
  ¬ cyclic wf_reversed ∧ ¬ dangling wf_reversed ∧
  NoDup (map node_ID (wf_Nodes wf_reversed)) ∧
  buildExecutionGraph wf_reversed = [demo_node "b" NodeHTTP; demo_node "a" NodeWebhook] ∧
  edge wf_reversed "a" "b" ∧
  precedes (buildExecutionGraph wf_reversed) "a" "b" = false ∧
  respects_connections wf_reversed (buildExecutionGraph wf_reversed) = false ∧
  ∃ w', Execute NewWorkflowExecutor 0 (demo_world wf_reversed) = Some ((Some 0, None), w') ∧
        calls w' = [(demo_node "b" NodeHTTP, VNil); (demo_node "a" NodeWebhook, VNil)].
Proof.
  split; [|split; [|split; [|split; [|split; [|split; [|split]]]]]].
  - intros [x Hx]. apply wf_reversed_path in Hx. destruct Hx as [-> Hx]. discriminate.
  - intros (c & Hc & Hd). apply list_elem_of_singleton in Hc. subst c. simpl in Hd.
    destruct Hd as [Hd|Hd]; apply Hd; [right; left | left].
  - simpl. apply NoDup_cons. split; [|apply NoDup_singleton].
    intros H. apply list_elem_of_singleton in H. discriminate.
  - reflexivity.
  - exists (mkConnection "c1" "a" "b"). split; [left | split; reflexivity].
  - reflexivity.
  - reflexivity.
  - exists (final_world NewWorkflowExecutor (demo_world wf_reversed) wf_reversed).
    split; [exact (Execute_spec NewWorkflowExecutor 0 (demo_world wf_reversed)
                     wf_reversed eq_refl)|].
    reflexivity.
Qed.

Lemma wf_cycle_cyclic : cyclic wf_cycle.
Proof.
  exists "a". apply (tc_l _ "a" "b" "a"); [|apply tc_once].
  - exists (mkConnection "c1" "a" "b"). split; [left | split; reflexivity].
  - exists (mkConnection "c2" "b" "a"). split; [right; left | split; reflexivity].
Qed.

(** C2 fails on the code: on the two-node cycle a -> b -> a the builder
    returns the plan a, b; the outcome is no [CycleDetected]. *)
Lemma buildExecutionGraph_accepts_cycle :
  cyclic wf_cycle ∧
  buildExecutionGraph_outcome wf_cycle
  = PlanBuilt [demo_node "a" NodeWebhook; demo_node "b" NodeHTTP] ∧
  ¬ ∃ id, buildExecutionGraph_outcome wf_cycle = CycleDetected id ∧ on_cycle wf_cycle id.
Proof.
  split; [apply wf_cycle_cyclic|]. split; [reflexivity|].
  intros (id & H & _). discriminate.
Qed.

(** C2, as the code has it.  The builder has no failure result: for a
    workflow whose graph contains a cycle it returns a plan all the same,
    and the plan is not partial, it holds every node of the workflow as
    often as the node collection does. *)
Theorem buildExecutionGraph_never_fails wf :
  cyclic wf ->
  ∃ plan, buildExecutionGraph_outcome wf = PlanBuilt plan ∧
          plan = buildExecutionGraph wf ∧
          plan ≡ₚ wf_Nodes wf.
Proof.
  intros _. exists (buildExecutionGraph wf).
  split; [reflexivity|]. split; [reflexivity|]. apply buildExecutionGraph_Permutation.
Qed.

Lemma buildExecutionGraph_never_fails_witness :
  cyclic wf_cycle ∧
  ∃ plan, buildExecutionGraph_outcome wf_cycle = PlanBuilt plan ∧
          plan = buildExecutionGraph wf_cycle ∧
          plan ≡ₚ wf_Nodes wf_cycle.
Proof.
  split; [apply wf_cycle_cyclic|].
  apply (buildExecutionGraph_never_fails wf_cycle). apply wf_cycle_cyclic.
Defined.




(** * The workflow store *)

Lemma CreateWorkflow_spec uuid p w wf :
  wf_heap w !! p = Some wf ->
  CreateWorkflow uuid p w
  = Some (None,
          mkWorld (tick (tick (env w))) (<[created_ID uuid wf := p]> (workflows w))
                  (<[p := created_workflow uuid (clock (env w)) (clock (tick (env w))) wf]>
                     (wf_heap w))
                  (res_heap w) (calls w)).
Proof.
  intros H. pose proof (lookup_lt_Some _ _ _ H) as Hp.
  unfold CreateWorkflow, created_workflow, created_ID.
  unfold mbind, M_bind, bind, deref_workflow, modify_workflow, time_Now, store_put,
    mret, M_ret, ret.
  rewrite H.
  destruct (bool_decide (wf_ID wf = "")); simpl; rewrite ?H; simpl;
    repeat (rewrite ?list_lookup_insert_eq, ?length_insert by
              (rewrite ?length_insert; exact Hp); simpl);
    unfold set_workflows, set_wf_heap; simpl;
    now rewrite !list_insert_insert_eq.
Qed.

Lemma UpdateWorkflow_missing p w wf :
  wf_heap w !! p = Some wf ->
  workflows w !! wf_ID wf = None ->
  UpdateWorkflow p w = Some (Some "workflow not found", w).
Proof.
  intros H E. unfold UpdateWorkflow, mbind, M_bind, bind, deref_workflow, store_exists.
  rewrite H. rewrite bool_decide_eq_false_2; [reflexivity|].
  rewrite E. now apply is_Some_None.
Qed.

Lemma UpdateWorkflow_found p w wf q :
  wf_heap w !! p = Some wf ->
  workflows w !! wf_ID wf = Some q ->
  UpdateWorkflow p w
  = Some (None,
          mkWorld (tick (env w)) (<[wf_ID wf := p]> (workflows w))
                  (<[p := set_wf_UpdatedAt (clock (env w)) wf]> (wf_heap w))
                  (res_heap w) (calls w)).
Proof.
  intros H E. pose proof (lookup_lt_Some _ _ _ H) as Hp.
  unfold UpdateWorkflow, mbind, M_bind, bind, deref_workflow, store_exists,
    modify_workflow, time_Now, store_put, mret, M_ret, ret.
  rewrite H. rewrite bool_decide_eq_true_2 by (rewrite E; now eexists).
  simpl. rewrite H. simpl. now rewrite list_lookup_insert_eq by exact Hp.
Qed.

Lemma DeleteWorkflow_missing id w :
  workflows w !! id = None ->
  DeleteWorkflow id w = Some (Some "workflow not found", w).
Proof.
  intros E. unfold DeleteWorkflow, mbind, M_bind, bind, store_exists.
  rewrite bool_decide_eq_false_2; [reflexivity|]. rewrite E. now apply is_Some_None.
Qed.

Lemma DeleteWorkflow_found id w q :
  workflows w !! id = Some q ->
  DeleteWorkflow id w = Some (None, set_workflows (delete id (workflows w)) w).
Proof.
  intros E. unfold DeleteWorkflow, mbind, M_bind, bind, store_exists.
  rewrite bool_decide_eq_true_2 by (rewrite E; now eexists). reflexivity.
Qed.

Lemma GetWorkflow_found id w p :
  workflows w !! id = Some p -> GetWorkflow id w = Some ((Some p, None), w).
Proof. intros E. unfold GetWorkflow. now rewrite E. Qed.

Lemma GetWorkflow_missing id w :
  workflows w !! id = None ->
  GetWorkflow id w = Some ((None, Some "workflow not found"), w).
Proof. intros E. unfold GetWorkflow. now rewrite E. Qed.

(** X1. [CreateWorkflow] never fails.  It files the workflow under its own
    identifier, or under the new UUID when the identifier is empty, sets the
    status to "inactive", [CreatedAt] to the reading of the clock at the
    call and [UpdatedAt] to the reading that follows it, whatever the caller
    supplied, and keeps name, description, nodes and connections.
    [GetWorkflow] with that identifier then returns the same pointer.  The
    other entries of the store, the other workflow objects and the
    execution results are untouched. *)
Theorem CreateWorkflow_then_GetWorkflow uuid p w wf :
  wf_heap w !! p = Some wf ->
  ∃ w' wf',
    CreateWorkflow uuid p w = Some (None, w') ∧
    GetWorkflow (wf_ID wf') w' = Some ((Some p, None), w') ∧
    wf_heap w' !! p = Some wf' ∧
    (wf_ID wf ≠ "" -> wf_ID wf' = wf_ID wf) ∧
    (wf_ID wf = "" -> wf_ID wf' = uuid) ∧
    wf_Status wf' = "inactive" ∧
    wf_CreatedAt wf' = clock (env w) ∧
    wf_UpdatedAt wf' = clock (tick (env w)) ∧
    wf_Name wf' = wf_Name wf ∧ wf_Description wf' = wf_Description wf ∧
    wf_Nodes wf' = wf_Nodes wf ∧ wf_Connections wf' = wf_Connections wf ∧
    (∀ id, id ≠ wf_ID wf' -> workflows w' !! id = workflows w !! id) ∧
    (∀ q, q ≠ p -> wf_heap w' !! q = wf_heap w !! q) ∧
    res_heap w' = res_heap w ∧ env w' = tick (tick (env w)).
Proof.
  intros H. pose proof (lookup_lt_Some _ _ _ H) as Hp.
  exists (mkWorld (tick (tick (env w))) (<[created_ID uuid wf := p]> (workflows w))
            (<[p := created_workflow uuid (clock (env w)) (clock (tick (env w))) wf]>
               (wf_heap w))
            (res_heap w) (calls w)),
    (created_workflow uuid (clock (env w)) (clock (tick (env w))) wf).
  split; [now apply CreateWorkflow_spec|].
  split; [apply GetWorkflow_found; simpl; apply lookup_insert_eq|].
  split; [simpl; now apply list_lookup_insert_eq|].
  split; [intros Hne; simpl; unfold created_ID; now rewrite bool_decide_eq_false_2|].
  split; [intros He; simpl; unfold created_ID; now rewrite bool_decide_eq_true_2|].
  do 7 (split; [reflexivity|]).
  split; [intros id Hne; simpl in *; now apply lookup_insert_ne|].
  split; [intros q Hne; simpl; now apply list_lookup_insert_ne|].
  split; reflexivity.
Qed.

Lemma CreateWorkflow_then_GetWorkflow_witness :
  wf_heap draft_world !! 1 = Some wf_draft ∧
  ∃ w' wf',
    CreateWorkflow "0b5e" 1 draft_world = Some (None, w') ∧
    GetWorkflow "0b5e" w' = Some ((Some 1, None), w') ∧
    wf_heap w' !! 1 = Some wf' ∧
    wf_ID wf' = "0b5e" ∧ wf_Status wf' = "inactive" ∧
    wf_CreatedAt wf' = 7%Z ∧ wf_UpdatedAt wf' = 9%Z ∧
    workflows w' !! "wf-1" = Some 0.
Proof.
  split; [reflexivity|].
  destruct (CreateWorkflow_then_GetWorkflow "0b5e" 1 draft_world wf_draft eq_refl)
    as (w' & wf' & Hc & Hg & Hh & _ & Hid & Hst & Hca & Hua & _ & _ & _ & _ & Hother & _).
  specialize (Hid eq_refl).
  exists w', wf'. rewrite Hid in Hg.
  split; [exact Hc|]. split; [exact Hg|]. split; [exact Hh|].
  split; [exact Hid|]. split; [exact Hst|]. split; [exact Hca|]. split; [exact Hua|].
  rewrite Hother; [reflexivity|]. rewrite Hid. discriminate.
Defined.

(** X2. Creating a workflow whose identifier is already in the store is no
    error: the entry is replaced by the new pointer, the number of stored
    workflows stays the same and the workflow object that was filed there
    before is left as it was.  With an identifier that is not in the store
    the number of stored workflows grows by one. *)
Theorem CreateWorkflow_replaces_entry uuid p w wf :
  wf_heap w !! p = Some wf ->
  ∃ w', CreateWorkflow uuid p w = Some (None, w') ∧
    workflows w' !! created_ID uuid wf = Some p ∧
    (∀ q, workflows w !! created_ID uuid wf = Some q ->
          size (workflows w') = size (workflows w) ∧
          (q ≠ p -> wf_heap w' !! q = wf_heap w !! q)) ∧
    (workflows w !! created_ID uuid wf = None ->
     size (workflows w') = S (size (workflows w))).
Proof.
  intros H.
  exists (mkWorld (tick (tick (env w))) (<[created_ID uuid wf := p]> (workflows w))
            (<[p := created_workflow uuid (clock (env w)) (clock (tick (env w))) wf]>
               (wf_heap w))
            (res_heap w) (calls w)).
  split; [now apply CreateWorkflow_spec|].
  split; [simpl; apply lookup_insert_eq|].
  split.
  - intros q Hq. simpl. split.
    + apply map_size_insert_Some. rewrite Hq. now eexists.
    + intros Hne. now apply list_lookup_insert_ne.
  - intros Hnone. simpl. now apply map_size_insert_None.
Qed.

Lemma CreateWorkflow_replaces_entry_witness :
  wf_heap draft_world !! 0 = Some wf_mixed ∧
  ∃ w', CreateWorkflow "0b5e" 0 draft_world = Some (None, w') ∧
        workflows w' !! "wf-1" = Some 0 ∧
        size (workflows w') = size (workflows draft_world).
Proof.
  split; [reflexivity|].
  destruct (CreateWorkflow_replaces_entry "0b5e" 0 draft_world wf_mixed eq_refl)
    as (w' & Hc & Hg & Hsome & _).
  exists w'. split; [exact Hc|]. split; [exact Hg|].
  exact (proj1 (Hsome 0 eq_refl)).
Defined.

(** X3. [UpdateWorkflow] fails with "workflow not found" exactly when the
    identifier of the submitted workflow is not in the store, and then
    changes nothing, not even the submitted object.  Otherwise the entry now
    holds the submitted pointer and only [UpdatedAt] of the submitted object
    is set: its [CreatedAt], status and other fields stay as submitted,
    nothing is carried over from the workflow it replaces, whose object is
    left as it was; the other entries and the number of stored workflows
    are unchanged. *)
Theorem UpdateWorkflow_replaces p w wf :
  wf_heap w !! p = Some wf ->
  ∃ err w',
    UpdateWorkflow p w = Some (err, w') ∧
    (err ≠ None ↔ workflows w !! wf_ID wf = None) ∧
    (err ≠ None -> err = Some "workflow not found" ∧ w' = w) ∧
    (err = None ->
       GetWorkflow (wf_ID wf) w' = Some ((Some p, None), w') ∧
       (∃ wf', wf_heap w' !! p = Some wf' ∧
               wf_UpdatedAt wf' = clock (env w) ∧
               wf_CreatedAt wf' = wf_CreatedAt wf ∧ wf_Status wf' = wf_Status wf ∧
               wf_ID wf' = wf_ID wf ∧ wf_Name wf' = wf_Name wf ∧
               wf_Description wf' = wf_Description wf ∧
               wf_Nodes wf' = wf_Nodes wf ∧ wf_Connections wf' = wf_Connections wf) ∧
       size (workflows w') = size (workflows w) ∧
       (∀ id, id ≠ wf_ID wf -> workflows w' !! id = workflows w !! id) ∧
       (∀ q, q ≠ p -> wf_heap w' !! q = wf_heap w !! q) ∧
       res_heap w' = res_heap w).
Proof.
  intros H. pose proof (lookup_lt_Some _ _ _ H) as Hp.
  destruct (workflows w !! wf_ID wf) as [q|] eqn:E.
  - exists None,
      (mkWorld (tick (env w)) (<[wf_ID wf := p]> (workflows w))
         (<[p := set_wf_UpdatedAt (clock (env w)) wf]> (wf_heap w))
         (res_heap w) (calls w)).
    split; [now apply (UpdateWorkflow_found p w wf q)|].
    split; [easy|]. split; [easy|]. intros _.
    split; [apply GetWorkflow_found; simpl; apply lookup_insert_eq|].
    split.
    { exists (set_wf_UpdatedAt (clock (env w)) wf).
      split; [simpl; now apply list_lookup_insert_eq|]. easy. }
    split; [simpl; apply map_size_insert_Some; rewrite E; now eexists|].
    split; [intros id Hne; simpl; now apply lookup_insert_ne|].
    split; [intros r Hne; simpl; now apply list_lookup_insert_ne|].
    reflexivity.
  - exists (Some "workflow not found"), w.
    split; [now apply (UpdateWorkflow_missing p w wf)|]. easy.
Qed.

Lemma UpdateWorkflow_replaces_witness :
  wf_heap draft_world !! 1 = Some wf_draft ∧
  ∃ err w',
    UpdateWorkflow 1 draft_world = Some (err, w') ∧
    err = Some "workflow not found" ∧ w' = draft_world.
Proof.
  split; [reflexivity|].
  destruct (UpdateWorkflow_replaces 1 draft_world wf_draft eq_refl)
    as (err & w' & Hu & Hiff & Herr & _).
  exists err, w'. split; [exact Hu|].
  apply Herr. apply Hiff. reflexivity.
Defined.

(** X4. [DeleteWorkflow] fails with "workflow not found" exactly when the
    identifier is not in the store, and then changes nothing.  After the
    call, whatever its outcome, [GetWorkflow] and a second [DeleteWorkflow]
    with that identifier fail; the other entries are as before, and the
    workflow objects and execution results are not touched.  A successful
    call removes one entry. *)
Theorem DeleteWorkflow_then_GetWorkflow id w :
  ∃ err w',
    DeleteWorkflow id w = Some (err, w') ∧
    (err ≠ None ↔ workflows w !! id = None) ∧
    (err ≠ None -> err = Some "workflow not found" ∧ w' = w) ∧
    (err = None -> size (workflows w) = S (size (workflows w'))) ∧
    GetWorkflow id w' = Some ((None, Some "workflow not found"), w') ∧
    DeleteWorkflow id w' = Some (Some "workflow not found", w') ∧
    (∀ id', id' ≠ id -> workflows w' !! id' = workflows w !! id') ∧
    wf_heap w' = wf_heap w ∧ res_heap w' = res_heap w.
Proof.
  destruct (workflows w !! id) as [q|] eqn:E.
  - exists None, (set_workflows (delete id (workflows w)) w).
    assert (Hgone : workflows (set_workflows (delete id (workflows w)) w) !! id = None)
      by (simpl; apply lookup_delete_eq).
    split; [now apply (DeleteWorkflow_found id w q)|].
    split; [easy|]. split; [easy|].
    split.
    { intros _. simpl. rewrite <- (insert_delete_id (workflows w) id q E) at 1.
      apply map_size_insert_None, lookup_delete_eq. }
    split; [now apply GetWorkflow_missing|].
    split; [now apply DeleteWorkflow_missing|].
    split; [intros id' Hne; simpl; now apply lookup_delete_ne|].
    split; reflexivity.
  - exists (Some "workflow not found"), w.
    split; [now apply DeleteWorkflow_missing|].
    split; [easy|]. split; [easy|]. split; [easy|].
    split; [now apply GetWorkflow_missing|].
    split; [now apply DeleteWorkflow_missing|]. easy.
Qed.

Lemma CreateWorkflow_nil_dereference uuid p w :
  wf_heap w !! p = None -> CreateWorkflow uuid p w = None.
Proof.
  intros H. unfold CreateWorkflow. apply bind_None.
  unfold deref_workflow. now rewrite H.
Qed.

Lemma UpdateWorkflow_nil_dereference p w :
  wf_heap w !! p = None -> UpdateWorkflow p w = None.
Proof.
  intros H. unfold UpdateWorkflow. apply bind_None.
  unfold deref_workflow. now rewrite H.
Qed.

Lemma created_ID_nonempty uuid wf : uuid ≠ "" -> created_ID uuid wf ≠ "".
Proof. intros Hu. unfold created_ID. now case_bool_decide. Qed.

(** Filing the object behind [p], whose identifier is [id], under [id]
    keeps the invariant when the other objects are left alone. *)
Lemma store_inv_put w e id p wf wf' :
  store_inv w -> wf_heap w !! p = Some wf ->
  id ≠ "" -> wf_ID wf' = id -> (wf_ID wf ≠ "" -> wf_ID wf = id) ->
  store_inv (mkWorld e (<[id := p]> (workflows w))
                     (<[p := wf']> (wf_heap w)) (res_heap w) (calls w)).
Proof.
  intros [Hempty Hall] H Hid Hwf' Hsame.
  pose proof (lookup_lt_Some _ _ _ H) as Hp.
  split; simpl.
  - rewrite lookup_insert_ne by exact Hid. exact Hempty.
  - intros k q Hk. destruct (decide (id = k)) as [<-|Hne].
    + rewrite lookup_insert_eq in Hk. injection Hk as <-.
      exists wf'. split; [now apply list_lookup_insert_eq | exact Hwf'].
    + rewrite lookup_insert_ne in Hk by exact Hne.
      destruct (Hall k q Hk) as (wf0 & Hq & Hk0).
      destruct (decide (q = p)) as [->|Hqp].
      * rewrite H in Hq. injection Hq as <-. exfalso. apply Hne.
        rewrite <- Hk0. symmetry. apply Hsame. rewrite Hk0.
        intros ->. rewrite Hempty in Hk. discriminate.
      * exists wf0. split; [|exact Hk0]. rewrite list_lookup_insert_ne; [exact Hq|].
        intros Heq. now apply Hqp.
Qed.

(** X5. The store invariant (every stored pointer refers to an allocated
    workflow that is filed under its own identifier, and nothing is filed
    under the empty identifier) holds for a new engine and is kept by
    [CreateWorkflow] (with a non-empty UUID), [UpdateWorkflow],
    [DeleteWorkflow] and [ExecuteWorkflow]; it gives the condition under
    which [ExecuteWorkflow] never dereferences a dangling pointer. *)
Theorem store_inv_preserved :
  (∀ w ex w', NewWorkflowEngine w = Some (ex, w') -> store_inv w') ∧
  (∀ uuid p w err w',
     uuid ≠ "" -> store_inv w -> CreateWorkflow uuid p w = Some (err, w') -> store_inv w') ∧
  (∀ p w err w', store_inv w -> UpdateWorkflow p w = Some (err, w') -> store_inv w') ∧
  (∀ id w err w', store_inv w -> DeleteWorkflow id w = Some (err, w') -> store_inv w') ∧
  (∀ we id w res w', store_inv w -> ExecuteWorkflow we id w = Some (res, w') -> store_inv w') ∧
  (∀ w, store_inv w -> store_ok w).
Proof.
  split; [|split; [|split; [|split; [|split]]]].
  - intros w ex w' [= _ <-]. split; simpl.
    + apply lookup_empty.
    + intros id p H. now rewrite lookup_empty in H.
  - intros uuid p w err w' Hu Hinv Hc.
    destruct (wf_heap w !! p) as [wf|] eqn:H;
      [|now rewrite CreateWorkflow_nil_dereference in Hc].
    rewrite (CreateWorkflow_spec uuid p w wf H) in Hc. injection Hc as _ <-.
    apply (store_inv_put w _ _ p wf); try assumption.
    + now apply created_ID_nonempty.
    + reflexivity.
    + intros Hne. unfold created_ID. now rewrite bool_decide_eq_false_2.
  - intros p w err w' Hinv Hu.
    destruct (wf_heap w !! p) as [wf|] eqn:H;
      [|now rewrite UpdateWorkflow_nil_dereference in Hu].
    destruct (workflows w !! wf_ID wf) as [q|] eqn:E.
    + rewrite (UpdateWorkflow_found p w wf q H E) in Hu. injection Hu as _ <-.
      apply (store_inv_put w _ _ p wf); try easy.
      intros He. destruct Hinv as [Hempty _]. rewrite He, Hempty in E. discriminate.
    + rewrite (UpdateWorkflow_missing p w wf H E) in Hu. now injection Hu as _ <-.
  - intros id w err w' [Hempty Hall] Hd.
    destruct (workflows w !! id) as [q|] eqn:E.
    + rewrite (DeleteWorkflow_found id w q E) in Hd. injection Hd as _ <-.
      split; simpl.
      * apply lookup_delete_None. now right.
      * intros k r Hk. apply lookup_delete_Some in Hk. destruct Hk as [_ Hk].
        now apply Hall.
    + rewrite (DeleteWorkflow_missing id w E) in Hd. now injection Hd as _ <-.
  - intros we id w res w' [Hempty Hall] Hx.
    destruct (ExecuteWorkflow_frame we id w res w' Hx) as (Hm & Hh & _).
    split; rewrite Hm; [exact Hempty|]. intros k q Hk. rewrite Hh. now apply Hall.
  - intros w [_ Hall] id p H. destruct (Hall id p H) as (wf & Hwf & _). now exists wf.
Qed.

Lemma draft_world_store_inv : store_inv draft_world.
Proof.
  split; [reflexivity|]. intros id p H. cbn [draft_world workflows] in H.
  apply lookup_insert_Some in H. destruct H as [[<- <-]|[_ H]].
  - exists wf_mixed. split; reflexivity.
  - rewrite lookup_empty in H. discriminate.
Qed.

Lemma store_inv_preserved_witness :
  ("0b5e" ≠ "" ∧ store_inv draft_world) ∧
  ∃ w1 w2 w3,
    CreateWorkflow "0b5e" 1 draft_world = Some (None, w1) ∧ store_inv w1 ∧
    DeleteWorkflow "wf-1" w1 = Some (None, w2) ∧ store_inv w2 ∧
    ExecuteWorkflow NewWorkflowExecutor "0b5e" w2 = Some ((Some 0, None), w3) ∧
    store_inv w3 ∧ store_ok w3.
Proof.
  split; [split; [discriminate | apply draft_world_store_inv]|].
  destruct store_inv_preserved as (_ & Hc & _ & Hd & Hx & Hok).
  pose (wf1 := created_workflow "0b5e" 7%Z 9%Z wf_draft).
  pose (w1 := mkWorld (mkEnv 12%Z [5; 8]%Z) (<["0b5e" := 1]> (<["wf-1" := 0]> ∅))
                (<[1 := wf1]> [wf_mixed; wf_draft]) [] []).
  pose (w2 := set_workflows (delete "wf-1" (workflows w1)) w1).
  pose (w3 := final_world NewWorkflowExecutor w2 wf1).
  assert (H1 : CreateWorkflow "0b5e" 1 draft_world = Some (None, w1))
    by exact (CreateWorkflow_spec "0b5e" 1 draft_world wf_draft eq_refl).
  assert (I1 : store_inv w1).
  { apply (Hc "0b5e" 1 draft_world None w1);
      [discriminate | apply draft_world_store_inv | exact H1]. }
  assert (H2 : DeleteWorkflow "wf-1" w1 = Some (None, w2))
    by exact (DeleteWorkflow_found "wf-1" w1 0 eq_refl).
  assert (I2 : store_inv w2) by exact (Hd "wf-1" w1 None w2 I1 H2).
  assert (H3 : ExecuteWorkflow NewWorkflowExecutor "0b5e" w2 = Some ((Some 0, None), w3)).
  { rewrite (ExecuteWorkflow_found NewWorkflowExecutor "0b5e" w2 1 eq_refl).
    exact (Execute_spec NewWorkflowExecutor 1 w2 wf1 eq_refl). }
  assert (I3 : store_inv w3) by exact (Hx _ "0b5e" w2 _ w3 I2 H3).
  exists w1, w2, w3.
  repeat (split; [assumption|]). now apply Hok.
Defined.

(** X6. [ListWorkflows] always returns, and every slice it can return has
    one entry per stored identifier: its length is the size of the store, a
    pointer is listed exactly when some identifier maps to it, and under the
    store invariant no pointer is listed twice.  For an empty store the
    slice is empty. *)
Theorem ListWorkflows_complete w :
  (∃ l, ListWorkflows w l) ∧
  ∀ l, ListWorkflows w l ->
    length l = size (workflows w) ∧
    (∀ p, p ∈ l ↔ ∃ id, workflows w !! id = Some p) ∧
    (store_inv w -> NoDup l) ∧
    (workflows w = ∅ -> l = []).
Proof.
  split; [exists ((map_to_list (workflows w)).*2); unfold ListWorkflows; reflexivity|].
  unfold ListWorkflows. intros l Hl.
  split; [rewrite Hl, length_fmap; apply length_map_to_list|].
  split; [|split].
  - intros p. rewrite Hl, list_elem_of_fmap. split.
    + intros ([id q] & -> & Hin). exists id. now apply elem_of_map_to_list.
    + intros [id Hid]. exists (id, p). split; [reflexivity|].
      now apply elem_of_map_to_list.
  - intros [_ Hall]. rewrite Hl. apply NoDup_fmap_2_strong; [|apply NoDup_map_to_list].
    intros [i1 p1] [i2 p2] H1 H2 Heq. simpl in Heq. subst p2.
    apply elem_of_map_to_list in H1, H2.
    destruct (Hall i1 p1 H1) as (wf1 & Hw1 & <-).
    destruct (Hall i2 p1 H2) as (wf2 & Hw2 & <-).
    rewrite Hw1 in Hw2. now injection Hw2 as <-.
  - intros He. rewrite He, map_to_list_empty in Hl. simpl in Hl.
    now apply Permutation_nil_r in Hl.
Qed.

Lemma ListWorkflows_complete_witness :
  ListWorkflows draft_world [0] ∧
  length [0] = size (workflows draft_world) ∧
  (∀ p, p ∈ [0] ↔ ∃ id, workflows draft_world !! id = Some p).
Proof.
  assert (Hl : ListWorkflows draft_world [0]).
  { unfold ListWorkflows. cbn [draft_world workflows].
    rewrite insert_empty, map_to_list_singleton. reflexivity. }
  split; [exact Hl|].
  destruct (proj2 (ListWorkflows_complete draft_world) [0] Hl) as (Hlen & Hin & _).
  split; [exact Hlen | exact Hin].
Defined.

(** X7. A workflow that was created can be executed under the identifier it
    was filed under: the run returns no error, labels the result with that
    identifier and calls the executors of the registered nodes of the plan
    of the submitted workflow.  After [DeleteWorkflow] the same call fails
    with "workflow not found" and produces nothing, and the result of the
    earlier run is still there, unchanged. *)
Theorem workflow_lifecycle we uuid p w wf :
  wf_heap w !! p = Some wf ->
  ∃ w1 r w2 res w3,
    CreateWorkflow uuid p w = Some (None, w1) ∧
    ExecuteWorkflow we (created_ID uuid wf) w1 = Some ((Some r, None), w2) ∧
    res_heap w2 !! r = Some res ∧
    WorkflowID res = created_ID uuid wf ∧
    calls w2 = calls w ++ map (λ n, (n, VNil)) (filter (registered we) (buildExecutionGraph wf)) ∧
    DeleteWorkflow (created_ID uuid wf) w2 = Some (None, w3) ∧
    ExecuteWorkflow we (created_ID uuid wf) w3
    = Some ((None, Some "workflow not found"), w3) ∧
    res_heap w3 !! r = Some res.
Proof.
  intros H. pose proof (lookup_lt_Some _ _ _ H) as Hp.
  set (id := created_ID uuid wf).
  pose (wf1 := created_workflow uuid (clock (env w)) (clock (tick (env w))) wf).
  pose (w1 := mkWorld (tick (tick (env w))) (<[id := p]> (workflows w))
                (<[p := wf1]> (wf_heap w)) (res_heap w) (calls w)).
  assert (Hid : workflows w1 !! id = Some p) by apply lookup_insert_eq.
  assert (Hwf1 : wf_heap w1 !! p = Some wf1) by now apply list_lookup_insert_eq.
  pose (w2 := final_world we w1 wf1).
  pose (w3 := set_workflows (delete id (workflows w2)) w2).
  exists w1, (length (res_heap w1)), w2,
    (let s := loop_result we w1 wf1 (buildExecutionGraph wf1) in
     finish (clock (ls_env s)) (ls_result s)), w3.
  split; [now apply CreateWorkflow_spec|].
  split; [rewrite (ExecuteWorkflow_found we id w1 p Hid); now apply Execute_spec|].
  split; [apply final_world_result|].
  split.
  { cbv zeta.
    destruct (finish_fields
                (clock (ls_env (loop_result we w1 wf1 (buildExecutionGraph wf1))))
                (ls_result (loop_result we w1 wf1 (buildExecutionGraph wf1))))
      as (-> & _).
    unfold loop_result.
    apply (run_ind we (λ s, WorkflowID (ls_result s) = id)); [reflexivity|].
    intros s' n _ IH. rewrite <- IH. apply step_fields. }
  split; [apply (final_world_calls we w1 wf1)|].
  split; [now apply (DeleteWorkflow_found id w2 p)|].
  split; [apply ExecuteWorkflow_not_found; simpl; apply lookup_delete_eq|].
  apply (final_world_result we w1 wf1).
Qed.

Lemma workflow_lifecycle_witness :
  wf_heap draft_world !! 1 = Some wf_draft ∧
  ∃ w1 r w2 res w3,
    CreateWorkflow "0b5e" 1 draft_world = Some (None, w1) ∧
    ExecuteWorkflow NewWorkflowExecutor "0b5e" w1 = Some ((Some r, None), w2) ∧
    res_heap w2 !! r = Some res ∧
    WorkflowID res = "0b5e" ∧
    DeleteWorkflow "0b5e" w2 = Some (None, w3) ∧
    ExecuteWorkflow NewWorkflowExecutor "0b5e" w3
    = Some ((None, Some "workflow not found"), w3) ∧
    res_heap w3 !! r = Some res.
Proof.
  split; [reflexivity|].
  destruct (workflow_lifecycle NewWorkflowExecutor "0b5e" 1 draft_world wf_draft eq_refl)
    as (w1 & r & w2 & res & w3 & Hc & Hx & Hr & Hid & _ & Hd & Hx' & Hr').
  exists w1, r, w2, res, w3. repeat (split; [assumption|]). exact Hr'.
Defined.

(** X8. Under the store invariant [ExecuteWorkflow] with a stored
    identifier labels its result with that identifier, and the result
    starts at the clock reading of the call. *)
Theorem ExecuteWorkflow_labels_result we id p w :
  store_inv w ->
  workflows w !! id = Some p ->
  ∃ r w' res,
    ExecuteWorkflow we id w = Some ((Some r, None), w') ∧
    res_heap w' !! r = Some res ∧
    WorkflowID res = id ∧ StartTime res = clock (env w).
Proof.
  intros [_ Hall] Hid. destruct (Hall id p Hid) as (wf & Hwf & Hwid).
  exists (length (res_heap w)), (final_world we w wf),
    (let s := loop_result we w wf (buildExecutionGraph wf) in
     finish (clock (ls_env s)) (ls_result s)).
  split; [rewrite (ExecuteWorkflow_found we id w p Hid); now apply Execute_spec|].
  split; [apply final_world_result|]. cbv zeta.
  destruct (finish_fields
              (clock (ls_env (loop_result we w wf (buildExecutionGraph wf))))
              (ls_result (loop_result we w wf (buildExecutionGraph wf))))
    as (-> & -> & _).
  unfold loop_result.
  apply (run_ind we (λ s, WorkflowID (ls_result s) = id ∧
                          StartTime (ls_result s) = clock (env w)));
    [now split|].
  intros s' n _ [IH1 IH2]. rewrite <- IH1, <- IH2.
  destruct (step_fields we s' n) as (-> & _ & -> & _). now split.
Qed.

Lemma ExecuteWorkflow_labels_result_witness :
  (store_inv draft_world ∧ workflows draft_world !! "wf-1" = Some 0) ∧
  ∃ r w' res,
    ExecuteWorkflow NewWorkflowExecutor "wf-1" draft_world = Some ((Some r, None), w') ∧
    res_heap w' !! r = Some res ∧
    WorkflowID res = "wf-1" ∧ StartTime res = 7%Z.
Proof.
  split; [split; [apply draft_world_store_inv | reflexivity]|].
  apply (ExecuteWorkflow_labels_result NewWorkflowExecutor "wf-1" 0 draft_world).
  - apply draft_world_store_inv.
  - reflexivity.
Defined.

(** * More on the coordinator *)

Lemma step_unregistered we s n :
  ¬ registered we n ->
  step we s n
  = mkLoopState (ls_env s) (append_error (dispatch_error n) (ls_result s)) (ls_calls s).
Proof.
  intros Hr. unfold step. apply eq_None_not_Some in Hr. now rewrite Hr.
Qed.

Lemma step_Results_cases we s n :
  let r := ls_result s in
  let r' := ls_result (step we s n) in
  (Results r' = Results r ∧ length (Errors r') = S (length (Errors r))) ∨
  (registered we n ∧ Errors r' = Errors r ∧
   ∃ out, Results r' = <[node_ID n := out]> (Results r)).
Proof.
  unfold step. destruct (nodeExecutors we !! node_Type n) as [ex|] eqn:E.
  - destruct (executor_Execute ex n VNil (ls_env s)) as [[out [msg|]] e']; simpl.
    + left. split; [reflexivity|]. rewrite length_app. simpl. lia.
    + right. split; [now exists ex|]. split; [reflexivity|]. now exists out.
  - left. simpl. split; [reflexivity|]. rewrite length_app. simpl. lia.
Qed.

Lemma filter_snoc_registered we (g : list Node) n :
  filter (registered we) (g ++ [n])
  = filter (registered we) g ++ (if decide (registered we n) then [n] else []).
Proof.
  rewrite filter_app, filter_cons, filter_nil. now destruct (decide (registered we n)).
Qed.

Lemma run_accounting we s graph :
  Results (ls_result s) = ∅ -> Errors (ls_result s) = [] ->
  let r := ls_result (run we s graph) in
  dom (Results r) ⊆ list_to_set (map node_ID (filter (registered we) graph)) ∧
  (length (Errors r) ≤ length graph)%nat ∧
  (NoDup (map node_ID graph) -> length (Errors r) + size (Results r) = length graph).
Proof.
  intros Hres Herr. cbv zeta.
  induction graph as [|n g IH] using rev_ind.
  - simpl. rewrite Hres, Herr. split; [set_solver|]. split; [simpl; lia|].
    intros _. simpl. now rewrite map_size_empty.
  - destruct IH as (IHd & IHl & IHn).
    rewrite run_snoc, filter_snoc_registered, !map_app, length_app. simpl.
    destruct (step_Results_cases we (run we s g) n) as [[-> Hlen]|(Hr & -> & out & ->)].
    + split; [rewrite list_to_set_app_L; set_solver|].
      split; [lia|].
      intros Hnd. apply NoDup_app in Hnd. destruct Hnd as (Hnd & _ & _).
      specialize (IHn Hnd). lia.
    + rewrite decide_True by exact Hr. simpl.
      split; [rewrite dom_insert, list_to_set_app_L; set_solver|].
      split; [lia|].
      intros Hnd. apply NoDup_app in Hnd. destruct Hnd as (Hnd & Hfresh & _).
      specialize (IHn Hnd).
      rewrite map_size_insert_None; [lia|].
      apply not_elem_of_dom. intros Hin. apply IHd in Hin.
      apply elem_of_list_to_set, list_elem_of_fmap in Hin.
      destruct Hin as (k & Hk & Hkin). apply list_elem_of_filter in Hkin.
      destruct Hkin as [_ Hkin].
      apply (Hfresh (node_ID k)); [now apply list_elem_of_fmap_2 | rewrite Hk; now left].
Qed.

(** X9. Every node of the plan is accounted for at most once, whatever the
    registry: the output mapping has keys only for registered nodes of the
    plan, the error list is no longer than the plan, and when the node
    identifiers are distinct the number of error entries and the number of
    outputs add up to the number of nodes. *)
Theorem Execute_accounts_for_nodes we wp w wf :
  wf_heap w !! wp = Some wf ->
  ∃ p w' r,
    Execute we wp w = Some ((Some p, None), w') ∧
    res_heap w' !! p = Some r ∧
    dom (Results r)
    ⊆ list_to_set (map node_ID (filter (registered we) (buildExecutionGraph wf))) ∧
    (length (Errors r) ≤ length (buildExecutionGraph wf))%nat ∧
    (NoDup (map node_ID (buildExecutionGraph wf)) ->
     length (Errors r) + size (Results r) = length (buildExecutionGraph wf)).
Proof.
  intros H.
  pose (s := loop_result we w wf (buildExecutionGraph wf)).
  exists (length (res_heap w)), (final_world we w wf),
    (finish (clock (ls_env s)) (ls_result s)).
  split; [now apply Execute_spec|]. split; [apply final_world_result|].
  destruct (finish_fields (clock (ls_env s)) (ls_result s)) as (_ & _ & _ & -> & ->).
  apply (run_accounting we (start_state w wf)
           (buildExecutionGraph wf)); reflexivity.
Qed.

Lemma Execute_accounts_for_nodes_witness :
  wf_heap (demo_world wf_mixed) !! 0 = Some wf_mixed ∧
  ∃ p w' r,
    Execute NewWorkflowExecutor 0 (demo_world wf_mixed) = Some ((Some p, None), w') ∧
    res_heap w' !! p = Some r ∧
    length (Errors r) + size (Results r) = 3.
Proof.
  split; [reflexivity|].
  destruct (Execute_accounts_for_nodes NewWorkflowExecutor 0 (demo_world wf_mixed)
              wf_mixed eq_refl) as (p & w' & r & Hx & Hr & _ & _ & Hsum).
  exists p, w', r. split; [exact Hx|]. split; [exact Hr|].
  apply Hsum. simpl. repeat (apply NoDup_cons; split; [set_solver|]). apply NoDup_nil.
  exact I.
Defined.

(** Every executor of the registry [we] returns a nil error. *)
Lemma run_all_succeed we s graph :
  (∀ ty ex, nodeExecutors we !! ty = Some ex -> always_succeeds ex) ->
  let r := ls_result (run we s graph) in
  Errors r
  = Errors (ls_result s) ++ map dispatch_error (filter (λ n, ¬ registered we n) graph) ∧
  dom (Results r)
  = dom (Results (ls_result s)) ∪ list_to_set (map node_ID (filter (registered we) graph)).
Proof.
  intros Hall. cbv zeta. induction graph as [|n g [IHe IHd]] using rev_ind.
  - simpl. rewrite app_nil_r. split; [reflexivity | set_solver].
  - rewrite run_snoc, filter_snoc_registered, filter_app, filter_cons, filter_nil, !map_app.
    destruct (decide (registered we n)) as [[ex E]|Hn].
    + rewrite decide_False by (intros Hneg; apply Hneg; now exists ex).
      destruct (step_success we (run we s g) n ex E (Hall _ _ E)) as (m & e' & ->).
      simpl. rewrite app_nil_r. split; [exact IHe|].
      rewrite dom_insert_L, IHd, list_to_set_app_L. simpl. set_solver.
    + rewrite decide_True by exact Hn.
      rewrite (step_unregistered we _ n Hn). simpl.
      split; [now rewrite IHe, app_assoc|].
      rewrite IHd, app_nil_r. reflexivity.
Qed.

(** X10. With the executors of [NewWorkflowExecutor] the error list is
    exactly the list of "no executor for node type: <type>" entries of the
    nodes of the plan whose type is not registered, in plan order; the keys
    of the output mapping are the identifiers of the registered nodes; and
    the result is "completed" if and only if every node of the plan has one
    of the six registered types. *)
Theorem Execute_errors_are_unregistered_types wp w wf :
  wf_heap w !! wp = Some wf ->
  ∃ p w' r,
    Execute NewWorkflowExecutor wp w = Some ((Some p, None), w') ∧
    res_heap w' !! p = Some r ∧
    Errors r = map (λ n, "no executor for node type: " +:+ node_Type n)
                   (filter (λ n, node_Type n ∉ registered_types) (buildExecutionGraph wf)) ∧
    dom (Results r)
    = list_to_set (map node_ID (filter (λ n, node_Type n ∈ registered_types)
                                       (buildExecutionGraph wf))) ∧
    (Status r = "completed" ↔
     ∀ n, n ∈ buildExecutionGraph wf -> node_Type n ∈ registered_types).
Proof.
  intros H.
  assert (Hreg : ∀ n, registered NewWorkflowExecutor n ↔ node_Type n ∈ registered_types).
  { intros n. split.
    - intros [ex E]. now apply (NewWorkflowExecutor_lookup _ ex).
    - apply registered_types_lookup. }
  pose (g := buildExecutionGraph wf).
  pose (s := loop_result NewWorkflowExecutor w wf g).
  exists (length (res_heap w)), (final_world NewWorkflowExecutor w wf),
    (finish (clock (ls_env s)) (ls_result s)).
  split; [now apply Execute_spec|]. split; [apply final_world_result|].
  destruct (run_all_succeed NewWorkflowExecutor
              (start_state w wf) g) as [He Hd].
  { intros ty ex E. apply registered_executors_succeed.
    now apply (NewWorkflowExecutor_lookup ty). }
  fold (loop_result NewWorkflowExecutor w wf g) in He, Hd. fold s in He, Hd.
  simpl in He, Hd.
  assert (Hf1 : filter (λ n, ¬ registered NewWorkflowExecutor n) g
                = filter (λ n, node_Type n ∉ registered_types) g).
  { apply list_filter_iff. intros n. now rewrite Hreg. }
  assert (Hf2 : filter (registered NewWorkflowExecutor) g
                = filter (λ n, node_Type n ∈ registered_types) g).
  { apply list_filter_iff. exact Hreg. }
  rewrite Hf1 in He. rewrite Hf2 in Hd.
  destruct (finish_fields (clock (ls_env s)) (ls_result s)) as (_ & _ & _ & -> & ->).
  split; [exact He|]. split; [rewrite Hd; set_solver|].
  rewrite (proj1 (finish_Status (clock (ls_env s)) (ls_result s))), He.
  split.
  - intros Hnil n Hn. destruct (decide (node_Type n ∈ registered_types)) as [Hy|Hno];
      [exact Hy|].
    apply fmap_nil_inv in Hnil.
    assert (Hin : n ∈ filter (λ n, node_Type n ∉ registered_types) g)
      by now apply list_elem_of_filter.
    rewrite Hnil in Hin. now apply elem_of_nil in Hin.
  - intros Hall.
    assert (Hnil : filter (λ n, node_Type n ∉ registered_types) g = []).
    { apply elem_of_nil_inv. intros n Hn. apply list_elem_of_filter in Hn.
      destruct Hn as [Hno Hn]. apply Hno. now apply Hall. }
    now rewrite Hnil.
Qed.

Lemma Execute_errors_are_unregistered_types_witness :
  wf_heap (demo_world wf_mixed) !! 0 = Some wf_mixed ∧
  ∃ p w' r,
    Execute NewWorkflowExecutor 0 (demo_world wf_mixed) = Some ((Some p, None), w') ∧
    res_heap w' !! p = Some r ∧
    Errors r = map (λ n, "no executor for node type: " +:+ node_Type n)
                   (filter (λ n, node_Type n ∉ registered_types)
                           (buildExecutionGraph wf_mixed)).
Proof.
  split; [reflexivity|].
  destruct (Execute_errors_are_unregistered_types 0 (demo_world wf_mixed) wf_mixed eq_refl)
    as (p & w' & r & Hx & Hr & He & _).
  now exists p, w', r.
Defined.

(** * Time *)

Lemma step_env we s n :
  ls_env (step we s n)
  = match nodeExecutors we !! node_Type n with
    | None => ls_env s
    | Some ex => (executor_Execute ex n VNil (ls_env s)).2
    end.
Proof.
  unfold step. destruct (nodeExecutors we !! node_Type n) as [ex|]; [|reflexivity].
  now destruct (executor_Execute ex n VNil (ls_env s)) as [[out [msg|]] e'].
Qed.

Lemma time_Sleep_clock d e : (clock e ≤ clock (time_Sleep d e))%Z.
Proof. unfold time_Sleep. cbn [clock]. lia. Qed.

Lemma NewWorkflowExecutor_clock ty ex :
  nodeExecutors NewWorkflowExecutor !! ty = Some ex ->
  ∀ n input e,
    (clock e ≤ clock (executor_Execute ex n input e).2)%Z ∧
    (ty ≠ NodeTimer -> (executor_Execute ex n input e).2 = e).
Proof.
  unfold NewWorkflowExecutor. cbn [nodeExecutors].
  repeat (rewrite lookup_insert_Some; intros [[<- <-]|[_ H]];
          [intros n input e; split;
           [try apply time_Sleep_clock; cbn [executor_Execute snd]; try reflexivity
           |intros Hne; try reflexivity; now contradict Hne]
          | revert H]).
  now rewrite lookup_empty.
Qed.

Lemma loop_result_header we w wf graph :
  WorkflowID (ls_result (loop_result we w wf graph)) = wf_ID wf ∧
  StartTime (ls_result (loop_result we w wf graph)) = clock (env w).
Proof.
  unfold loop_result.
  apply (run_ind we (λ s, WorkflowID (ls_result s) = wf_ID wf ∧
                          StartTime (ls_result s) = clock (env w))); [now split|].
  intros s' n _ [IH1 IH2]. rewrite <- IH1, <- IH2.
  destruct (step_fields we s' n) as (-> & _ & -> & _). now split.
Qed.

Lemma wrap_int64_in_range z :
  (int64_min ≤ z ≤ int64_max)%Z -> wrap_int64 z = z.
Proof.
  unfold int64_min, int64_max, wrap_int64.
  change (2 ^ 63)%Z with 9223372036854775808%Z.
  change (2 ^ 64)%Z with 18446744073709551616%Z.
  intros Hz. rewrite Z.mod_small by lia. lia.
Qed.

Lemma wrap_int64_overflow z :
  (2 ^ 63 ≤ z < 2 ^ 64)%Z -> wrap_int64 z = (z - 2 ^ 64)%Z.
Proof.
  unfold wrap_int64.
  change (2 ^ 63)%Z with 9223372036854775808%Z.
  change (2 ^ 64)%Z with 18446744073709551616%Z.
  intros Hz.
  replace (z + 9223372036854775808)%Z
    with ((z - 9223372036854775808) + 1 * 18446744073709551616)%Z by lia.
  rewrite Z_mod_plus_full, Z.mod_small by lia. lia.
Qed.

Lemma tick_clock e : (clock e ≤ clock (tick e))%Z.
Proof. unfold tick. cbn [clock]. lia. Qed.

Lemma run_clock graph : ∀ s,
  (clock (ls_env s) ≤ clock (ls_env (run NewWorkflowExecutor s graph)))%Z.
Proof.
  induction graph as [|n rest IH]; intros s; [reflexivity|].
  simpl. etransitivity; [|apply IH]. rewrite step_env.
  destruct (nodeExecutors NewWorkflowExecutor !! node_Type n) as [ex|] eqn:E;
    [|reflexivity].
  apply (NewWorkflowExecutor_clock _ ex E n VNil (ls_env s)).
Qed.

Lemma step_timer s n :
  node_Type n = NodeTimer ->
  ls_env (step NewWorkflowExecutor s n)
  = time_Sleep (wrap_int64
                  (float64_to_int64 (assert_float64 (node_Properties n !! "interval"))
                   * time_Second)%Z) (ls_env s).
Proof.
  intros Ht. rewrite step_env, Ht. reflexivity.
Qed.

(** X11. With the executors of [NewWorkflowExecutor] the result starts at
    the clock reading of the call and does not end before it starts, and
    the run lasts at least as long as each of its timers sleeps: for a
    timer node of the plan whose interval, truncated to whole seconds [t],
    fits an [int64] count of nanoseconds, the end is at least [t] seconds
    after the start. *)
Theorem Execute_time_range wp w wf :
  wf_heap w !! wp = Some wf ->
  ∃ p w' r,
    Execute NewWorkflowExecutor wp w = Some ((Some p, None), w') ∧
    res_heap w' !! p = Some r ∧
    StartTime r = clock (env w) ∧
    (StartTime r ≤ EndTime r)%Z ∧
    (EndTime r ≤ clock (env w'))%Z ∧
    (∀ n, n ∈ buildExecutionGraph wf -> node_Type n = NodeTimer ->
       let t := float64_to_int64 (assert_float64 (node_Properties n !! "interval")) in
       (0 ≤ t * 1000000000 ≤ int64_max)%Z ->
       (StartTime r + t * 1000000000 ≤ EndTime r)%Z).
Proof.
  intros H.
  pose (g := buildExecutionGraph wf).
  pose (s := loop_result NewWorkflowExecutor w wf g).
  exists (length (res_heap w)), (final_world NewWorkflowExecutor w wf),
    (finish (clock (ls_env s)) (ls_result s)).
  split; [now apply Execute_spec|]. split; [apply final_world_result|].
  destruct (finish_fields (clock (ls_env s)) (ls_result s)) as (_ & -> & -> & _).
  destruct (loop_result_header NewWorkflowExecutor w wf g) as [_ Hstart].
  fold s in Hstart. rewrite Hstart.
  pose proof (tick_clock (env w)) as Ht0.
  split; [reflexivity|].
  split.
  { unfold s, loop_result. pose proof (run_clock g (start_state w wf)) as Hm.
    cbn [start_state ls_env] in Hm. lia. }
  split; [apply tick_clock|].
  intros n Hn Hty t Hr.
  apply list_elem_of_split in Hn. destruct Hn as (pre & post & Hg).
  unfold s, loop_result, g. rewrite Hg, run_app. simpl.
  pose proof (run_clock pre (start_state w wf)) as Hpre.
  cbn [start_state ls_env] in Hpre.
  pose proof (run_clock post (step NewWorkflowExecutor
                                (run NewWorkflowExecutor (start_state w wf) pre) n))
    as Hpost.
  rewrite (step_timer _ n Hty) in Hpost at 1. fold t in Hpost.
  unfold time_Second in Hpost. rewrite wrap_int64_in_range in Hpost
    by (unfold int64_min, int64_max in *; lia).
  unfold time_Sleep in Hpost. cbn [clock] in Hpost. lia.
Qed.

Lemma Execute_time_range_witness :
  wf_heap (demo_world wf_timer) !! 0 = Some wf_timer ∧
  ∃ p w' r,
    Execute NewWorkflowExecutor 0 (demo_world wf_timer) = Some ((Some p, None), w') ∧
    res_heap w' !! p = Some r ∧
    StartTime r = 7%Z ∧ (1000000007 ≤ EndTime r)%Z.
Proof.
  split; [reflexivity|].
  destruct (Execute_time_range 0 (demo_world wf_timer) wf_timer eq_refl)
    as (p & w' & r & Hx & Hr & Hs & _ & _ & Ht).
  exists p, w', r. split; [exact Hx|]. split; [exact Hr|]. split; [exact Hs|].
  specialize (Ht (timer_node (S754_finite false 3 (-1)))).
  rewrite Hs in Ht. apply Ht.
  - right. left.
  - reflexivity.
  - vm_compute. split; discriminate.
Defined.

(** * The node executors *)

Lemma time_Sleep_nonpositive d e : (d ≤ 0)%Z -> time_Sleep d e = e.
Proof.
  intros Hd. unfold time_Sleep. destruct e as [c l]. cbn [clock lapses].
  f_equal. lia.
Qed.

Lemma float64_to_int64_fraction s m x :
  (Z.pos m < 2 ^ (- x))%Z -> float64_to_int64 (S754_finite s m x) = 0%Z.
Proof.
  intros Hm.
  assert (Hx : (x < 0)%Z).
  { destruct (Z.ltb_spec x 0) as [Hlt|Hge]; [exact Hlt|]. exfalso.
    destruct (Z.eq_dec x 0%Z) as [->|Hne]; [simpl in Hm; lia|].
    rewrite Z.pow_neg_r in Hm by lia. lia. }
  unfold float64_to_int64.
  assert (Hmag : Z.shiftl (Z.pos m) x = 0%Z).
  { rewrite <- (Z.opp_involutive x) at 1. rewrite Z.shiftl_opp_r.
    rewrite Z.shiftr_div_pow2 by lia. apply Z.div_small. lia. }
  rewrite Hmag. destruct s; simpl; reflexivity.
Qed.

(** X12. The timer executor returns the interval it read and sleeps for
    the interval truncated to whole seconds [t], as far as [t] seconds fit
    in an [int64] count of nanoseconds.  It does not sleep when the
    interval is missing or is no number, when it is zero or negative (with
    the product in range), when its magnitude is below one second, and when
    [t * 10^9] lies between [2^63] and [2^64], where the product wraps to a
    negative duration. *)
Theorem TimerExecutor_sleep n input e :
  let interval := assert_float64 (node_Properties n !! "interval") in
  let t := float64_to_int64 interval in
  let e' := (executor_Execute TimerExecutor n input e).2 in
  (executor_Execute TimerExecutor n input e).1
  = (VMap (<["status" := VString "timer_completed"]>
           (<["waited" := VFloat interval]> ∅)), None) ∧
  ((0 ≤ t * 1000000000 ≤ int64_max)%Z -> clock e' = (clock e + t * 1000000000)%Z) ∧
  ((int64_min ≤ t * 1000000000 ≤ 0)%Z -> e' = e) ∧
  ((2 ^ 63 ≤ t * 1000000000 < 2 ^ 64)%Z -> e' = e) ∧
  ((∀ f, node_Properties n !! "interval" ≠ Some (VFloat f)) -> e' = e) ∧
  (∀ s m x, interval = S754_finite s m x -> (Z.pos m < 2 ^ (- x))%Z -> e' = e).
Proof.
  cbv zeta. cbn [TimerExecutor executor_Execute]. unfold TimerExecutor_Execute.
  cbn [fst snd]. unfold time_Second.
  set (interval := assert_float64 (node_Properties n !! "interval")).
  set (t := float64_to_int64 interval).
  assert (Hzero : t = 0%Z -> time_Sleep (wrap_int64 (t * 1000000000)) e = e).
  { intros ->. apply time_Sleep_nonpositive. now vm_compute. }
  split; [reflexivity|]. split; [|split; [|split; [|split]]].
  - intros Ht. rewrite wrap_int64_in_range by (unfold int64_min, int64_max in *; lia).
    unfold time_Sleep. cbn [clock]. lia.
  - intros Ht. apply time_Sleep_nonpositive.
    rewrite wrap_int64_in_range by (unfold int64_min, int64_max in *; lia). lia.
  - intros Ht. apply time_Sleep_nonpositive.
    rewrite wrap_int64_overflow by exact Ht. lia.
  - intros Hno. apply Hzero. unfold t, interval.
    destruct (node_Properties n !! "interval") as [[| | f | | |]|] eqn:E;
      try reflexivity.
    now destruct (Hno f).
  - intros s m x Hi Hm. apply Hzero. unfold t. rewrite Hi.
    now apply float64_to_int64_fraction.
Qed.

Lemma TimerExecutor_sleep_witness :
  (0 ≤ float64_to_int64 (S754_finite false 3 (-1)) * 1000000000 ≤ int64_max)%Z ∧
  clock (executor_Execute TimerExecutor (timer_node (S754_finite false 3 (-1))) VNil
                          (mkEnv 7%Z [])).2
  = 1000000007%Z ∧
  (executor_Execute TimerExecutor (timer_node (S754_finite false 1 (-1))) VNil
                    (mkEnv 7%Z [])).2
  = mkEnv 7%Z [].
Proof.
  assert (Hr : (0 ≤ float64_to_int64 (S754_finite false 3 (-1)) * 1000000000
                ≤ int64_max)%Z) by (vm_compute; split; discriminate).
  split; [exact Hr|].
  destruct (TimerExecutor_sleep (timer_node (S754_finite false 3 (-1))) VNil (mkEnv 7%Z []))
    as (_ & Hin & _).
  destruct (TimerExecutor_sleep (timer_node (S754_finite false 1 (-1))) VNil (mkEnv 7%Z []))
    as (_ & _ & _ & _ & _ & Hfrac).
  split.
  - exact (Hin Hr).
  - apply (Hfrac false 1%positive (-1)%Z); [reflexivity | now vm_compute].
Defined.

(** X13. None of the six registered executors reads its input, the
    environment or anything of the node but its properties: two calls of
    the same executor on nodes with equal properties return the same output
    and error, whatever the inputs, the environments and the other fields
    of the nodes. *)
Theorem registered_executors_read_properties_only ex :
  ex ∈ registered_executors ->
  ∀ n1 n2 input1 input2 e1 e2,
    node_Properties n1 = node_Properties n2 ->
    (executor_Execute ex n1 input1 e1).1 = (executor_Execute ex n2 input2 e2).1.
Proof.
  intros Hex n1 n2 input1 input2 e1 e2 Hp. unfold registered_executors in Hex.
  repeat (apply elem_of_cons in Hex; destruct Hex as [->|Hex];
          [cbn [executor_Execute WebhookExecutor TimerExecutor HTTPExecutor
                  EmailExecutor ConditionExecutor TransformExecutor];
           unfold WebhookExecutor_Execute, TimerExecutor_Execute, HTTPExecutor_Execute,
             EmailExecutor_Execute, ConditionExecutor_Execute, TransformExecutor_Execute;
           cbn [fst]; now rewrite Hp|]).
  now apply elem_of_nil in Hex.
Qed.

Lemma registered_executors_read_properties_only_witness :
  (EmailExecutor ∈ registered_executors ∧
   node_Properties (demo_node "a" NodeEmail) = node_Properties (demo_node "b" NodeHTTP)) ∧
  (executor_Execute EmailExecutor (demo_node "a" NodeEmail) VNil (mkEnv 0%Z [])).1
  = (executor_Execute EmailExecutor (demo_node "b" NodeHTTP) (VString "x") (mkEnv 9%Z [4%Z])).1.
Proof.
  assert (Hin : EmailExecutor ∈ registered_executors)
    by (unfold registered_executors; set_solver).
  split; [split; [exact Hin | reflexivity]|].
  apply (registered_executors_read_properties_only EmailExecutor Hin). reflexivity.
Defined.

(** * Outputs and what a run depends on *)

Lemma run_Results_unregistered we graph id : ∀ s,
  (∀ m, m ∈ graph -> registered we m -> node_ID m ≠ id) ->
  Results (ls_result (run we s graph)) !! id = Results (ls_result s) !! id.
Proof.
  induction graph as [|k rest IH]; intros s Hno; [reflexivity|].
  simpl. rewrite IH by (intros m Hm; apply Hno; now right).
  destruct (step_Results_cases we s k) as [[-> _]|(Hr & _ & out & ->)]; [reflexivity|].
  apply lookup_insert_ne. apply Hno; [now left | exact Hr].
Qed.

(** X14. When several nodes of the plan carry the same identifier, the
    output mapping keeps the output of the last one that ran successfully:
    if the executor of [n] returns [out] without error and no registered
    node after [n] in the plan has the identifier of [n], the result holds
    [out] under that identifier, whatever the nodes before [n] produced. *)
Theorem Execute_last_output_wins we wp w wf pre n post ex out :
  wf_heap w !! wp = Some wf ->
  buildExecutionGraph wf = pre ++ n :: post ->
  nodeExecutors we !! node_Type n = Some ex ->
  (∀ e, (executor_Execute ex n VNil e).1 = (out, None)) ->
  (∀ m, m ∈ post -> registered we m -> node_ID m ≠ node_ID n) ->
  ∃ p w' r,
    Execute we wp w = Some ((Some p, None), w') ∧
    res_heap w' !! p = Some r ∧
    Results r !! node_ID n = Some out.
Proof.
  intros H Hplan E Hout Hpost.
  pose (s0 := start_state w wf).
  pose (s := loop_result we w wf (buildExecutionGraph wf)).
  exists (length (res_heap w)), (final_world we w wf),
    (finish (clock (ls_env s)) (ls_result s)).
  split; [now apply Execute_spec|]. split; [apply final_world_result|].
  destruct (finish_fields (clock (ls_env s)) (ls_result s)) as (_ & _ & _ & -> & _).
  unfold s, loop_result. rewrite Hplan, run_app. simpl.
  rewrite run_Results_unregistered by exact Hpost.
  unfold step. rewrite E.
  pose proof (Hout (ls_env (run we (start_state w wf) pre)))
    as Ho.
  destruct (executor_Execute ex n VNil
              (ls_env (run we (start_state w wf) pre)))
    as [[o err] e']. simpl in Ho. injection Ho as -> ->.
  simpl. apply lookup_insert_eq.
Qed.

Lemma Execute_last_output_wins_witness :
  (wf_heap (demo_world wf_twins) !! 0 = Some wf_twins ∧
   buildExecutionGraph wf_twins
   = [demo_node "a" NodeWebhook] ++ demo_node "a" NodeEmail :: [demo_node "a" NodeDatabase]) ∧
  ∃ p w' r,
    Execute NewWorkflowExecutor 0 (demo_world wf_twins) = Some ((Some p, None), w') ∧
    res_heap w' !! p = Some r ∧
    Results r !! "a"
    = Some (VMap (<["status" := VString "email_sent"]>
                  (<["to" := VString ""]> (<["subject" := VString ""]> ∅)))).
Proof.
  split; [split; reflexivity|].
  apply (Execute_last_output_wins NewWorkflowExecutor 0 (demo_world wf_twins) wf_twins
           [demo_node "a" NodeWebhook] (demo_node "a" NodeEmail)
           [demo_node "a" NodeDatabase] EmailExecutor).
  - reflexivity.
  - reflexivity.
  - reflexivity.
  - intros e. reflexivity.
  - intros m Hm [ex Hex]. apply list_elem_of_singleton in Hm. subst m.
    vm_compute in Hex. discriminate.
Defined.

(** X15. A run reads the identifier and the nodes of the workflow and
    nothing else of it: two workflows with the same identifier and the same
    nodes, whatever their connections, names, descriptions, statuses and
    timestamps, executed in worlds with the same clock, results and call
    log, give the same result objects, the same clock and the same calls. *)
Theorem Execute_reads_nodes_only we wp w1 w2 wf1 wf2 :
  wf_heap w1 !! wp = Some wf1 ->
  wf_heap w2 !! wp = Some wf2 ->
  wf_ID wf1 = wf_ID wf2 ->
  wf_Nodes wf1 = wf_Nodes wf2 ->
  env w1 = env w2 -> res_heap w1 = res_heap w2 -> calls w1 = calls w2 ->
  ∃ p w1' w2',
    Execute we wp w1 = Some ((Some p, None), w1') ∧
    Execute we wp w2 = Some ((Some p, None), w2') ∧
    res_heap w1' = res_heap w2' ∧ env w1' = env w2' ∧ calls w1' = calls w2'.
Proof.
  intros H1 H2 Hid Hn He Hr Hc.
  exists (length (res_heap w1)), (final_world we w1 wf1), (final_world we w2 wf2).
  split; [now apply Execute_spec|].
  split; [rewrite Hr; now apply Execute_spec|].
  assert (Hs : loop_result we w1 wf1 (buildExecutionGraph wf1)
               = loop_result we w2 wf2 (buildExecutionGraph wf2)).
  { unfold loop_result, start_state, initial_result, buildExecutionGraph.
    now rewrite Hid, Hn, He, Hc. }
  unfold final_world. cbv zeta. cbn [res_heap env calls]. now rewrite Hs, Hr.
Qed.

Lemma Execute_reads_nodes_only_witness :
  (wf_heap (demo_world wf_ab) !! 0 = Some wf_ab ∧
   wf_heap (demo_world wf_cycle) !! 0 = Some wf_cycle ∧
   wf_ID wf_ab = wf_ID wf_cycle ∧ wf_Nodes wf_ab = wf_Nodes wf_cycle) ∧
  ∃ p w1' w2',
    Execute NewWorkflowExecutor 0 (demo_world wf_ab) = Some ((Some p, None), w1') ∧
    Execute NewWorkflowExecutor 0 (demo_world wf_cycle) = Some ((Some p, None), w2') ∧
    res_heap w1' = res_heap w2' ∧ env w1' = env w2' ∧ calls w1' = calls w2'.
Proof.
  split; [repeat split|].
  apply (Execute_reads_nodes_only NewWorkflowExecutor 0 (demo_world wf_ab)
           (demo_world wf_cycle) wf_ab wf_cycle); reflexivity.
Defined.

(** * The HTTP handlers *)

Lemma handleGetWorkflow_found id w p wf :
  workflows w !! id = Some p -> wf_heap w !! p = Some wf ->
  handleGetWorkflow id w = Some (json_response (BodyWorkflow wf), w).
Proof.
  intros Hid Hwf. unfold handleGetWorkflow, mbind, M_bind, bind.
  rewrite (GetWorkflow_found id w p Hid). unfold deref_workflow. now rewrite Hwf.
Qed.

Lemma handleGetWorkflow_missing id w :
  workflows w !! id = None ->
  handleGetWorkflow id w = Some (http_Error "workflow not found" StatusNotFound, w).
Proof.
  intros Hid. unfold handleGetWorkflow, mbind, M_bind, bind.
  now rewrite (GetWorkflow_missing id w Hid).
Qed.

Lemma handleExecuteWorkflow_missing id w :
  workflows w !! id = None ->
  handleExecuteWorkflow id w
  = Some (http_Error "workflow not found" StatusInternalServerError, w).
Proof.
  intros Hid. unfold handleExecuteWorkflow, mbind, M_bind, bind.
  now rewrite (ExecuteWorkflow_not_found NewWorkflowExecutor id w Hid).
Qed.

(** X16. [handleExecuteWorkflow] answers an unknown identifier with status
    500 and the text "workflow not found", and changes nothing.  For a
    stored identifier it answers with status 200 and the JSON of the new
    result, labelled with the identifier, also when the run has failed: the
    status of the run ("completed", or "failed" exactly when the error list
    is not empty) is in the body only. *)
Theorem handleExecuteWorkflow_response id w :
  store_inv w ->
  ∃ resp w',
    handleExecuteWorkflow id w = Some (resp, w') ∧
    (workflows w !! id = None ->
     resp = http_Error "workflow not found" StatusInternalServerError ∧ w' = w) ∧
    (is_Some (workflows w !! id) ->
     resp_status resp = StatusOK ∧
     resp_content_type resp = Some "application/json" ∧
     ∃ r, resp_body resp = BodyResult r ∧
          res_heap w' !! length (res_heap w) = Some r ∧
          WorkflowID r = id ∧
          (Status r = "completed" ↔ Errors r = []) ∧
          (Status r = "failed" ↔ Errors r ≠ [])).
Proof.
  intros [_ Hall]. destruct (workflows w !! id) as [p|] eqn:Hid.
  - destruct (Hall id p Hid) as (wf & Hwf & Hwid).
    pose (s := loop_result NewWorkflowExecutor w wf (buildExecutionGraph wf)).
    exists (json_response (BodyResult (finish (clock (ls_env s)) (ls_result s)))),
      (final_world NewWorkflowExecutor w wf).
    split.
    { unfold handleExecuteWorkflow, mbind, M_bind, bind.
      rewrite (ExecuteWorkflow_found _ id w p Hid), (Execute_spec _ p w wf Hwf).
      unfold load_result. now rewrite final_world_result. }
    split; [discriminate|]. intros _.
    split; [reflexivity|]. split; [reflexivity|].
    exists (finish (clock (ls_env s)) (ls_result s)).
    split; [reflexivity|]. split; [apply final_world_result|].
    destruct (finish_fields (clock (ls_env s)) (ls_result s)) as (-> & _ & _ & _ & ->).
    split; [rewrite <- Hwid; apply loop_result_header|].
    apply finish_Status.
  - exists (http_Error "workflow not found" StatusInternalServerError), w.
    split; [now apply handleExecuteWorkflow_missing|].
    split; [easy|]. intros [x Hx]. discriminate.
Qed.

Lemma handleExecuteWorkflow_response_witness :
  store_inv draft_world ∧
  ∃ resp w' r,
    handleExecuteWorkflow "wf-1" draft_world = Some (resp, w') ∧
    resp_status resp = 200 ∧
    resp_body resp = BodyResult r ∧ WorkflowID r = "wf-1" ∧ Status r = "failed".
Proof.
  split; [apply draft_world_store_inv|].
  destruct (handleExecuteWorkflow_response "wf-1" draft_world draft_world_store_inv)
    as (resp & w' & Hh & _ & Hok).
  destruct (Hok ltac:(now eexists)) as (Hst & _ & r & Hb & Hr & Hid & _ & Hf).
  exists resp, w', r. repeat (split; [assumption|]).
  apply Hf.
  assert (Hw' : w' = final_world NewWorkflowExecutor draft_world wf_mixed).
  { assert (Hh' : handleExecuteWorkflow "wf-1" draft_world
                  = Some (json_response
                            (BodyResult
                               (let s := loop_result NewWorkflowExecutor draft_world wf_mixed
                                           (buildExecutionGraph wf_mixed) in
                                finish (clock (ls_env s)) (ls_result s))),
                          final_world NewWorkflowExecutor draft_world wf_mixed)).
    { unfold handleExecuteWorkflow, mbind, M_bind, bind.
      rewrite (ExecuteWorkflow_found _ "wf-1" draft_world 0 eq_refl),
        (Execute_spec _ 0 draft_world wf_mixed eq_refl).
      unfold load_result. now rewrite final_world_result. }
    rewrite Hh' in Hh. now injection Hh. }
  rewrite Hw', final_world_result in Hr. injection Hr as <-.
  now vm_compute.
Defined.

Lemma new_workflow_spec wf w :
  new_workflow wf w = Some (length (wf_heap w), set_wf_heap (wf_heap w ++ [wf]) w).
Proof. reflexivity. Qed.

(** X17. [handleCreateWorkflow] never answers 500.  A body that does not
    decode is answered with status 400 and the decoder's message, and
    nothing changes.  A decoded workflow is answered with status 200 and the
    workflow as it was filed: under its identifier or the new UUID, with
    status "inactive", [CreatedAt] at the reading of the clock at the call
    and [UpdatedAt] at the reading that follows it.  [handleGetWorkflow]
    with that identifier then gives the same response; the other entries of
    the store are not touched. *)
Theorem handleCreateWorkflow_then_Get uuid body w :
  ∃ resp w',
    handleCreateWorkflow uuid body w = Some (resp, w') ∧
    resp_status resp ≠ StatusInternalServerError ∧
    (∀ err, body = inl err -> resp = http_Error err StatusBadRequest ∧ w' = w) ∧
    (∀ wf, body = inr wf ->
       resp = json_response
                (BodyWorkflow
                   (created_workflow uuid (clock (env w)) (clock (tick (env w))) wf)) ∧
       handleGetWorkflow (created_ID uuid wf) w' = Some (resp, w') ∧
       (∀ id, id ≠ created_ID uuid wf -> workflows w' !! id = workflows w !! id)).
Proof.
  destruct body as [err|wf].
  - exists (http_Error err StatusBadRequest), w.
    split; [reflexivity|]. split; [discriminate|].
    split; [now intros e [= <-] | discriminate].
  - pose (p := length (wf_heap w)).
    pose (w1 := set_wf_heap (wf_heap w ++ [wf]) w).
    assert (Hp : wf_heap w1 !! p = Some wf) by apply lookup_snoc.
    pose (wf' := created_workflow uuid (clock (env w)) (clock (tick (env w))) wf).
    pose (w2 := mkWorld (tick (tick (env w1))) (<[created_ID uuid wf := p]> (workflows w1))
                  (<[p := wf']> (wf_heap w1)) (res_heap w1) (calls w1)).
    assert (Hp2 : wf_heap w2 !! p = Some wf').
    { simpl. apply list_lookup_insert_eq. now apply lookup_lt_Some in Hp. }
    exists (json_response (BodyWorkflow wf')), w2.
    split.
    { assert (Hc : CreateWorkflow uuid p w1 = Some (None, w2))
        by exact (CreateWorkflow_spec uuid p w1 wf Hp).
      unfold handleCreateWorkflow, mbind, M_bind, bind.
      change (new_workflow wf w) with (Some (p, w1)). cbv beta iota.
      rewrite Hc. cbv beta iota. unfold deref_workflow. now rewrite Hp2. }
    split; [discriminate|]. split; [discriminate|].
    intros wf0 [= <-]. split; [reflexivity|]. split.
    + apply (handleGetWorkflow_found _ w2 p wf'); [apply lookup_insert_eq | exact Hp2].
    + intros id Hne. simpl. now apply lookup_insert_ne.
Qed.

Lemma handleCreateWorkflow_then_Get_witness :
  ∃ resp w' wf',
    handleCreateWorkflow "0b5e" (inr wf_draft) draft_world = Some (resp, w') ∧
    resp = json_response (BodyWorkflow wf') ∧
    wf_ID wf' = "0b5e" ∧ wf_Status wf' = "inactive" ∧
    wf_CreatedAt wf' = 7%Z ∧ wf_UpdatedAt wf' = 9%Z ∧
    handleGetWorkflow "0b5e" w' = Some (resp, w').
Proof.
  destruct (handleCreateWorkflow_then_Get "0b5e" (inr wf_draft) draft_world)
    as (resp & w' & Hh & _ & _ & Hok).
  destruct (Hok wf_draft eq_refl) as (Hresp & Hget & _).
  exists resp, w', (created_workflow "0b5e" 7%Z 9%Z wf_draft).
  split; [exact Hh|]. split; [exact Hresp|]. do 4 (split; [reflexivity|]).
  exact Hget.
Defined.

(** X18. [handleDeleteWorkflow] answers status 204 without body when the
    identifier is stored and status 404 with "workflow not found" when it is
    not, in which case nothing changes.  Afterwards the identifier is
    unknown to the other handlers, which report it with different codes:
    [handleGetWorkflow] with 404, [handleExecuteWorkflow] with 500. *)
Theorem handleDeleteWorkflow_then_Get id w :
  ∃ resp w',
    handleDeleteWorkflow id w = Some (resp, w') ∧
    (workflows w !! id = None ->
     resp = http_Error "workflow not found" StatusNotFound ∧ w' = w) ∧
    (is_Some (workflows w !! id) ->
     resp = mkResponse StatusNoContent None BodyNone ∧
     ∀ id', id' ≠ id -> workflows w' !! id' = workflows w !! id') ∧
    handleGetWorkflow id w'
    = Some (http_Error "workflow not found" StatusNotFound, w') ∧
    handleExecuteWorkflow id w'
    = Some (http_Error "workflow not found" StatusInternalServerError, w').
Proof.
  destruct (workflows w !! id) as [p|] eqn:Hid.
  - exists (mkResponse StatusNoContent None BodyNone),
      (set_workflows (delete id (workflows w)) w).
    assert (Hgone : workflows (set_workflows (delete id (workflows w)) w) !! id = None)
      by (simpl; apply lookup_delete_eq).
    split.
    { unfold handleDeleteWorkflow, mbind, M_bind, bind.
      now rewrite (DeleteWorkflow_found id w p Hid). }
    split; [discriminate|].
    split; [intros _; split; [reflexivity|];
            intros id' Hne; simpl; now apply lookup_delete_ne|].
    split; [now apply handleGetWorkflow_missing|].
    now apply handleExecuteWorkflow_missing.
  - exists (http_Error "workflow not found" StatusNotFound), w.
    split.
    { unfold handleDeleteWorkflow, mbind, M_bind, bind.
      now rewrite (DeleteWorkflow_missing id w Hid). }
    split; [easy|]. split; [intros [x Hx]; discriminate|].
    split; [now apply handleGetWorkflow_missing|].
    now apply handleExecuteWorkflow_missing.
Qed.

Lemma handleDeleteWorkflow_then_Get_witness :
  ∃ resp w',
    handleDeleteWorkflow "wf-1" draft_world = Some (resp, w') ∧
    resp_status resp = 204 ∧
    (∃ r, handleGetWorkflow "wf-1" w' = Some (r, w') ∧ resp_status r = 404) ∧
    (∃ r, handleExecuteWorkflow "wf-1" w' = Some (r, w') ∧ resp_status r = 500).
Proof.
  destruct (handleDeleteWorkflow_then_Get "wf-1" draft_world)
    as (resp & w' & Hh & _ & Hok & Hget & Hexec).
  exists resp, w'. split; [exact Hh|].
  split; [rewrite (proj1 (Hok ltac:(now eexists))); reflexivity|].
  split; eexists; (split; [eassumption | reflexivity]).
Defined.

(** X19. [handleUpdateWorkflow] goes by the identifier in the body, not by
    the one in the path.  A body that does not decode is answered with
    status 400 and nothing changes; an identifier that is not stored is
    answered with status 500 and "workflow not found", and the store and
    the stored workflows stay as they were.  Otherwise the answer is status
    200 with the submitted workflow, in which only [UpdatedAt] is set (its
    [CreatedAt] and status are those of the body), and [handleGetWorkflow]
    with that identifier gives the same response. *)
Theorem handleUpdateWorkflow_response body w :
  ∃ resp w',
    handleUpdateWorkflow body w = Some (resp, w') ∧
    (∀ err, body = inl err -> resp = http_Error err StatusBadRequest ∧ w' = w) ∧
    (∀ wf, body = inr wf -> workflows w !! wf_ID wf = None ->
       resp = http_Error "workflow not found" StatusInternalServerError ∧
       workflows w' = workflows w ∧
       ∀ q wf0, wf_heap w !! q = Some wf0 -> wf_heap w' !! q = Some wf0) ∧
    (∀ wf, body = inr wf -> is_Some (workflows w !! wf_ID wf) ->
       resp = json_response (BodyWorkflow (set_wf_UpdatedAt (clock (env w)) wf)) ∧
       handleGetWorkflow (wf_ID wf) w' = Some (resp, w') ∧
       (∀ id, id ≠ wf_ID wf -> workflows w' !! id = workflows w !! id)).
Proof.
  destruct body as [err|wf].
  - exists (http_Error err StatusBadRequest), w.
    split; [reflexivity|]. split; [now intros e [= <-]|]. split; discriminate.
  - pose (p := length (wf_heap w)).
    pose (w1 := set_wf_heap (wf_heap w ++ [wf]) w).
    assert (Hp : wf_heap w1 !! p = Some wf) by apply lookup_snoc.
    destruct (workflows w !! wf_ID wf) as [q|] eqn:E.
    + pose (wf' := set_wf_UpdatedAt (clock (env w)) wf).
      pose (w2 := mkWorld (tick (env w1)) (<[wf_ID wf := p]> (workflows w1))
                    (<[p := wf']> (wf_heap w1)) (res_heap w1) (calls w1)).
      assert (Hp2 : wf_heap w2 !! p = Some wf').
      { simpl. apply list_lookup_insert_eq. now apply lookup_lt_Some in Hp. }
      exists (json_response (BodyWorkflow wf')), w2.
      split.
      { assert (Hc : UpdateWorkflow p w1 = Some (None, w2))
          by exact (UpdateWorkflow_found p w1 wf q Hp E).
        unfold handleUpdateWorkflow, mbind, M_bind, bind.
        change (new_workflow wf w) with (Some (p, w1)). cbv beta iota.
        rewrite Hc. cbv beta iota. unfold deref_workflow. now rewrite Hp2. }
      split; [discriminate|]. split; [intros wf0 [= <-] Hn; congruence|].
      intros wf0 [= <-] _. split; [reflexivity|]. split.
      * apply (handleGetWorkflow_found _ w2 p wf'); [apply lookup_insert_eq | exact Hp2].
      * intros id Hne. simpl. now apply lookup_insert_ne.
    + exists (http_Error "workflow not found" StatusInternalServerError), w1.
      split.
      { assert (Hc : UpdateWorkflow p w1 = Some (Some "workflow not found", w1))
          by exact (UpdateWorkflow_missing p w1 wf Hp E).
        unfold handleUpdateWorkflow, mbind, M_bind, bind.
        change (new_workflow wf w) with (Some (p, w1)). cbv beta iota.
        now rewrite Hc. }
      split; [discriminate|]. split.
      * intros wf0 [= <-] _. split; [reflexivity|]. split; [reflexivity|].
        intros r wf1 Hr. simpl. now apply lookup_app_l_Some.
      * intros wf0 [= <-] [x Hx]. congruence.
Qed.

Lemma handleUpdateWorkflow_response_witness :
  ∃ resp w',
    handleUpdateWorkflow (inr wf_draft) draft_world = Some (resp, w') ∧
    resp_status resp = 500 ∧ workflows w' = workflows draft_world.
Proof.
  destruct (handleUpdateWorkflow_response (inr wf_draft) draft_world)
    as (resp & w' & Hh & _ & Hmiss & _).
  destruct (Hmiss wf_draft eq_refl eq_refl) as (-> & Hm & _).
  exists (http_Error "workflow not found" StatusInternalServerError), w'.
  split; [exact Hh|]. split; [reflexivity | exact Hm].
Defined.
